(** * Salesforce SDK: the process-wide cache and the Engine built on it

    The development follows [src/lib/helpers/engine.ts], which holds the two
    classes of the package: [CacheProvider], a static object used as a
    string-keyed map, and [Engine], which wraps a [jsforce.Connection] and
    memoizes sessions and describe results in that cache.

    JavaScript is embedded shallowly:
    - a value is an element of [value];
    - the object behind [CacheProvider.cacheData] is a [JSObject.t]: its own
      properties as a finite map, and its prototype link;
    - code that throws returns a [completion]; an [async] method is a state
      transformer whose completion is the settlement of its promise;
    - the jsforce library is a parameter ([Provider]): it answers every
      request the Engine issues, and the requests are logged in the state;
    - calls are run one after another, each until its promise has settled:
      two calls in flight at once are not modelled. *)

From Stdlib Require Import String Ascii NArith List Bool Lia.
From stdpp Require Import base option strings gmap.

Open Scope string_scope.

(** ** Values *)

(** Error objects: [new Error(message)], and the [TypeError]s of the runtime. *)
Inductive error : Type :=
| Error (message : string)
| TypeError (message : string).

(** The credential object handed to [login]: [{ username, password }]. *)
Record Credential : Type := {
  username : string;
  password : string
}.

(** What jsforce stores in [conn.userInfo] after a successful login. *)
Record UserInfo : Type := {
  user_id : string;
  organizationId : string;
  user_url : string
}.

(** A [jsforce.Connection]. [conn_id] is the identity of the object (two
    connections built by two [new] expressions differ in it); [userInfo],
    [instanceUrl] and [accessToken] are [None] while they are [undefined]. *)
Record Connection : Type := {
  conn_id : nat;
  loginUrl : option string;
  instanceUrl : option string;
  accessToken : option string;
  userInfo : option UserInfo
}.

(** Results of the provider, with their contents kept abstract: a descriptor
    or a record is represented by its name. *)
Record DescribeGlobalResult : Type := { sobjects : list string }.
Record DescribeSObjectResult : Type := { sobject_name : string; fields : list string }.
Record QueryResult : Type := { totalSize : nat; records : list string }.
Record SaveResult : Type := { save_id : string; success : bool; errors : list string }.

Inductive value : Type :=
| VUndefined
| VNull
| VBool (b : bool)
| VStr (s : string)
| VErr (e : error)
| VCred (c : Credential)
| VUserInfo (u : UserInfo)
| VConn (c : Connection)
| VList (items : list string)
| VMeta (m : DescribeSObjectResult)
| VRows (r : QueryResult)
| VSave (r : SaveResult)
| VFunction (name : string)      (* a function object, named by its qualified name *)
| VObjectPrototype.              (* the object [Object.prototype] *)

#[global] Instance error_eq_dec : EqDecision error.
Proof. solve_decision. Defined.
#[global] Instance Credential_eq_dec : EqDecision Credential.
Proof. solve_decision. Defined.
#[global] Instance UserInfo_eq_dec : EqDecision UserInfo.
Proof. solve_decision. Defined.
#[global] Instance Connection_eq_dec : EqDecision Connection.
Proof. solve_decision. Defined.
#[global] Instance DescribeSObjectResult_eq_dec : EqDecision DescribeSObjectResult.
Proof. solve_decision. Defined.
#[global] Instance QueryResult_eq_dec : EqDecision QueryResult.
Proof. solve_decision. Defined.
#[global] Instance SaveResult_eq_dec : EqDecision SaveResult.
Proof. solve_decision. Defined.
#[global] Instance value_eq_dec : EqDecision value.
Proof. solve_decision. Defined.

(** How a piece of code ends. For an [async] method the completion is the
    settlement of the promise it returns: [Normal v] is fulfilment with [v],
    [Throw e] is rejection with [e], [Pending] is a promise that never
    settles. *)
Inductive completion (A : Type) : Type :=
| Normal (a : A)
| Throw (e : value)
| Pending.
Arguments Normal {A} a.
Arguments Throw {A} e.
Arguments Pending {A}.

(** [ToBoolean]. *)
Definition truthy (v : value) : bool :=
  match v with
  | VUndefined | VNull => false
  | VBool b => b
  | VStr s => negb (s =? "")
  | _ => true
  end.

(** [Type(v) is Object]. *)
Definition is_object (v : value) : bool :=
  match v with
  | VUndefined | VNull | VBool _ | VStr _ => false
  | _ => true
  end.

(** The data properties every ordinary object inherits from
    [Object.prototype]; the accessor [__proto__] is treated where properties
    are read and written. *)
Definition object_prototype_methods : list string :=
  [ "__defineGetter__"; "__defineSetter__"; "hasOwnProperty";
    "__lookupGetter__"; "__lookupSetter__"; "isPrototypeOf";
    "propertyIsEnumerable"; "toString"; "valueOf"; "toLocaleString" ].

Definition hasOwnProperty_name : string := "Object.prototype.hasOwnProperty".

Definition object_prototype_get (name : string) : value :=
  if name =? "constructor" then VFunction "Object"
  else if existsb (String.eqb name) object_prototype_methods
       then VFunction ("Object.prototype." ++ name)
       else VUndefined.

(** The properties of a value that the model spells out. *)
Definition own_field (v : value) (name : string) : option value :=
  let str (o : option string) := match o with Some s => VStr s | None => VUndefined end in
  match v with
  | VCred c =>
      if name =? "username" then Some (VStr (username c))
      else if name =? "password" then Some (VStr (password c))
      else None
  | VUserInfo u =>
      if name =? "id" then Some (VStr (user_id u))
      else if name =? "organizationId" then Some (VStr (organizationId u))
      else if name =? "url" then Some (VStr (user_url u))
      else None
  | VConn c =>
      if name =? "instanceUrl" then Some (str (instanceUrl c))
      else if name =? "accessToken" then Some (str (accessToken c))
      else if name =? "userInfo"
           then Some (match userInfo c with Some u => VUserInfo u | None => VUndefined end)
           else None
  | VMeta m =>
      if name =? "fields" then Some (VList (fields m))
      else if name =? "name" then Some (VStr (sobject_name m))
      else None
  | VSave r =>
      if name =? "success" then Some (VBool (success r))
      else if name =? "id" then Some (VStr (save_id r))
      else if name =? "errors" then Some (VList (errors r))
      else None
  | _ => None
  end.

(** Object literals: their prototype is [Object.prototype] and the fields
    above are all they own. *)
Definition literal (v : value) : bool :=
  match v with
  | VCred _ | VUserInfo _ | VSave _ => true
  | _ => false
  end.

(** ** The host

    What the model leaves to the JavaScript host and to the libraries: the
    members of objects it keeps opaque (class instances, arrays, functions,
    errors, wrappers of primitives), assignments that go through such an
    object used as a prototype, calls of functions other than
    [Object.prototype.hasOwnProperty], and [ToString] of objects. A call made
    in place of [hasOwnProperty] is taken to leave the cache as it is. *)
Record Host : Type := {
  host_get : value -> string -> value;
  host_put : value -> gmap string value -> string -> value -> completion (gmap string value);
  host_call : string -> gmap string value -> string -> completion value;
  host_to_string : value -> string
}.

(** [v[name]] for a value [v] that is neither [undefined] nor [null]. *)
Definition get_property (H : Host) (v : value) (name : string) : value :=
  match own_field v name with
  | Some x => x
  | None =>
      match v with
      | VObjectPrototype =>
          if name =? "__proto__" then VNull else object_prototype_get name
      | _ =>
          if literal v
          then (if name =? "__proto__" then VObjectPrototype else object_prototype_get name)
          else host_get H v name
      end
  end.

(** [ToString], as a template literal applies it. *)
Definition ToString (H : Host) (v : value) : string :=
  match v with
  | VUndefined => "undefined"
  | VNull => "null"
  | VBool true => "true"
  | VBool false => "false"
  | VStr s => s
  | _ => host_to_string H v
  end.

(** [String.prototype.toLowerCase] on the code units of the string: [A]-[Z]
    go to [a]-[z]. Code units outside ASCII are left alone here; none of
    them lower-cases to a letter of ["production"] or ["sandbox"]. *)
Definition lower_ascii (c : ascii) : ascii :=
  let n := N_of_ascii c in
  if ((65 <=? n) && (n <=? 90))%N then ascii_of_N (n + 32) else c.

Fixpoint toLowerCase (s : string) : string :=
  match s with
  | EmptyString => EmptyString
  | String c rest => String (lower_ascii c) (toLowerCase rest)
  end.

(** ** Objects used as maps *)

Module JSObject.

(** An ordinary extensible object whose own properties were all created by
    assignment (writable, enumerable, configurable data properties).
    [prototype] is [None] for [null]. *)
Record t : Type := {
  own : gmap string value;
  prototype : option value
}.

(** The literal [{}]. *)
Definition empty : t := {| own := ∅; prototype := Some VObjectPrototype |}.

(** [o[key]]. *)
Definition get (H : Host) (o : t) (key : string) : value :=
  match own o !! key with
  | Some v => v
  | None =>
      match prototype o with
      | None => VUndefined
      | Some p => if key =? "__proto__" then p else get_property H p key
      end
  end.

(** [o[key] = data] in strict code. An own property is overwritten. Without
    one, the assignment consults the prototype chain: [__proto__] reaches
    the accessor of [Object.prototype], whose setter replaces the prototype
    when [data] is an object or [null] and ignores anything else; the data
    properties of [Object.prototype] are writable, so the assignment creates
    an own property; with any other prototype the host decides. *)
Definition set (H : Host) (o : t) (key : string) (data : value) : completion t :=
  let define := Normal {| own := <[key := data]> (own o); prototype := prototype o |} in
  match own o !! key with
  | Some _ => define
  | None =>
      match prototype o with
      | None => define
      | Some p =>
          if key =? "__proto__" then
            if is_object data then Normal {| own := own o; prototype := Some data |}
            else match data with
                 | VNull => Normal {| own := own o; prototype := None |}
                 | _ => Normal o
                 end
          else
            match p with
            | VObjectPrototype => define
            | _ =>
                match host_put H p (own o) key data with
                | Normal props => Normal {| own := props; prototype := prototype o |}
                | Throw e => Throw e
                | Pending => Pending
                end
            end
      end
  end.

(** [o.hasOwnProperty(key)]: the method is looked up on [o] like any other
    property, then called. *)
Definition hasOwnProperty (H : Host) (o : t) (key : string) : completion value :=
  match get H o "hasOwnProperty" with
  | VFunction f =>
      if f =? hasOwnProperty_name
      then Normal (VBool (match own o !! key with Some _ => true | None => false end))
      else host_call H f (own o) key
  | _ => Throw (VErr (TypeError "this.cacheData.hasOwnProperty is not a function"))
  end.

(** [delete o[key]]. *)
Definition delete (o : t) (key : string) : t :=
  {| own := base.delete key (own o); prototype := prototype o |}.

End JSObject.

(** ** The provider

    The jsforce library is outside the package. It is a parameter of the
    model: for each request it is handed the requests issued before and gives
    its answer. Operations that take a callback follow the convention of
    Node: the callback receives either an error and no result, or [null] and
    the result. *)

Inductive request : Type :=
| ReqLogin (conn : Connection) (user pass : value)
| ReqDescribeGlobal (conn : Connection)
| ReqDescribe (conn : Connection) (objectName : string)
| ReqQuery (conn : Connection) (soql : string)
| ReqCreate (conn : Connection) (object : string) (recs : value)
| ReqUpdate (conn : Connection) (object : string) (recs : value)
| ReqUpsert (conn : Connection) (object : string) (recs : value) (extId : string)
| ReqDestroy (conn : Connection) (object : string) (recs : value).

Inductive callback (R : Type) : Type :=
| Failure (err : error)      (* callback(err) *)
| Success (res : R).         (* callback(null, res) *)
Arguments Failure {R} err.
Arguments Success {R} res.

(** The answer to [conn.login(username, password, callback)]: the error the
    callback receives, if any; the error the returned promise rejects with, if
    it rejects; and the fields the call leaves in the connection. *)
Record LoginReply : Type := {
  reported : option error;
  rejects : option error;
  session_instanceUrl : option string;
  session_accessToken : option string;
  session_userInfo : option UserInfo
}.

Record Provider : Type := {
  connect : list request -> Connection -> value -> value -> LoginReply;
  describeGlobal : list request -> Connection -> callback DescribeGlobalResult;
  describe : list request -> Connection -> string -> callback DescribeSObjectResult;
  run_query : list request -> Connection -> string -> callback QueryResult;
  sobject_create : list request -> Connection -> string -> value -> callback SaveResult;
  sobject_update : list request -> Connection -> string -> value -> callback SaveResult;
  sobject_upsert : list request -> Connection -> string -> value -> string -> callback SaveResult;
  sobject_destroy : list request -> Connection -> string -> value -> callback SaveResult
}.

(** ** The state of the process *)

Record state : Type := {
  cache : JSObject.t;          (* CacheProvider.cacheData *)
  requests : list request;     (* requests sent to the provider, oldest first *)
  console : list value;        (* what console.error printed, oldest first *)
  uncaught : list value;       (* errors thrown inside callbacks of the provider *)
  connections : nat            (* jsforce.Connection objects built so far *)
}.

Definition with_cache (o : JSObject.t) (s : state) : state :=
  {| cache := o; requests := requests s; console := console s;
     uncaught := uncaught s; connections := connections s |}.

(** Code that reads and writes the state and may throw. *)
Definition M (A : Type) : Type := state -> completion A * state.

Definition ret {A : Type} (a : A) : M A := fun s => (Normal a, s).

Definition throw {A : Type} (e : value) : M A := fun s => (Throw e, s).

Definition pending {A : Type} : M A := fun s => (Pending, s).

(** Code that does not touch the state. *)
Definition lift {A : Type} (c : completion A) : M A := fun s => (c, s).

Definition bind {A B : Type} (m : M A) (k : A -> M B) : M B :=
  fun s =>
    match m s with
    | (Normal a, s') => k a s'
    | (Throw e, s') => (Throw e, s')
    | (Pending, s') => (Pending, s')
    end.

Notation "'let*' x ':=' m 'in' k" := (bind m (fun x => k))
  (at level 10, x name, m at level 100, k at level 200).
Notation "m ';;' k" := (bind m (fun _ => k))
  (at level 100, k at level 200, right associativity).

(** ** CacheProvider *)

Module CacheProvider.

(** [private static cacheData = {}]. *)
Definition cacheData : JSObject.t := JSObject.empty.

(** [return this.cacheData[key]]. *)
Definition getCache (H : Host) (key : string) : M value :=
  fun s => (Normal (JSObject.get H (cache s) key), s).

(** [this.cacheData[key] = data]. *)
Definition setCache (H : Host) (key : string) (data : value) : M unit :=
  fun s =>
    match JSObject.set H (cache s) key data with
    | Normal o => (Normal tt, with_cache o s)
    | Throw e => (Throw e, s)
    | Pending => (Pending, s)
    end.

(** [return this.cacheData.hasOwnProperty(key)]. *)
Definition hasCache (H : Host) (key : string) : M value :=
  fun s => (JSObject.hasOwnProperty H (cache s) key, s).

(** [if (this.hasCache(key)) { delete this.cacheData[key]; }]. *)
Definition deleteCache (H : Host) (key : string) : M unit :=
  let* present := hasCache H key in
  if truthy present
  then (fun s => (Normal tt, with_cache (JSObject.delete (cache s) key) s))
  else ret tt.

End CacheProvider.

(** The state when the module is loaded. *)
Definition initial : state :=
  {| cache := CacheProvider.cacheData; requests := []; console := []; uncaught := [];
     connections := 0 |}.

(** ** The runtime around the Engine *)

Definition log_request (r : request) (s : state) : state :=
  {| cache := cache s; requests := requests s ++ [r]; console := console s;
     uncaught := uncaught s; connections := connections s |}.

Definition log_console (v : value) (s : state) : state :=
  {| cache := cache s; requests := requests s; console := console s ++ [v];
     uncaught := uncaught s; connections := connections s |}.

Definition log_uncaught (v : value) (s : state) : state :=
  {| cache := cache s; requests := requests s; console := console s;
     uncaught := uncaught s ++ [v]; connections := connections s |}.

Definition cannot_read (what name : string) : value :=
  VErr (TypeError ("Cannot read properties of " ++ what ++ " (reading '" ++ name ++ "')")).

(** The connection object once [login] has answered: the same object, with
    the session fields the provider left in it. *)
Definition answered (conn : Connection) (reply : LoginReply) : Connection :=
  {| conn_id := conn_id conn; loginUrl := loginUrl conn;
     instanceUrl := session_instanceUrl reply;
     accessToken := session_accessToken reply;
     userInfo := session_userInfo reply |}.

Section Runtime.

Variable H : Host.
Variable P : Provider.

(** [v.name]: reading a property of [undefined] or [null] throws. *)
Definition read (v : value) (name : string) : completion value :=
  match v with
  | VUndefined => Throw (cannot_read "undefined" name)
  | VNull => Throw (cannot_read "null" name)
  | _ => Normal (get_property H v name)
  end.

Definition member (v : value) (name : string) : M value := lift (read v name).

(** [console.error(v)]; its value is [undefined]. *)
Definition console_error (v : value) : M value :=
  fun s => (Normal VUndefined, log_console v s).

(** Hands a request to the provider; gives back the requests sent before. *)
Definition send (r : request) : M (list request) :=
  fun s => (Normal (requests s), log_request r s).

(** [new jsforce.Connection({ loginUrl: url })]. The session fields of the
    new object are not read before [login] has answered. *)
Definition new_Connection (url : option string) : M Connection :=
  fun s =>
    (Normal {| conn_id := connections s; loginUrl := url; instanceUrl := None;
               accessToken := None; userInfo := None |},
     {| cache := cache s; requests := requests s; console := console s;
        uncaught := uncaught s; connections := S (connections s) |}).

(** [await conn.login(user, pass, callback)]: the callback receives the
    reported error or [null]; the call gives the connection as the provider
    left it, unless the promise rejects. *)
Definition Connection_login (conn : Connection) (user pass : value)
    (callback : value -> M unit) : M Connection :=
  let* history := send (ReqLogin conn user pass) in
  let reply := connect P history conn user pass in
  callback (match reported reply with Some e => VErr e | None => VNull end) ;;
  match rejects reply with
  | Some e => throw (VErr e)
  | None => ret (answered conn reply)
  end.

(** The receiver of a method of jsforce: only a connection has one. *)
Definition receiver (conn : value) (method : string) : completion Connection :=
  match conn with
  | VConn c => Normal c
  | VUndefined => Throw (cannot_read "undefined" method)
  | VNull => Throw (cannot_read "null" method)
  | _ => Throw (VErr (TypeError ("conn." ++ method ++ " is not a function")))
  end.

Definition connection_of (conn : value) (method : string) : M Connection :=
  lift (receiver conn method).

(** An error thrown inside a callback goes to the provider that called it,
    not to the promise: it is recorded as uncaught. *)
Definition thrown_in_callback (e : value) : M unit :=
  fun s => (Normal tt, log_uncaught e s).

(** Runs a statement of a callback; tells whether it completed. *)
Definition in_callback (m : M unit) : M bool :=
  fun s =>
    match m s with
    | (Normal _, s') => (Normal true, s')
    | (Throw e, s') => (Normal false, log_uncaught e s')
    | (Pending, s') => (Normal false, s')
    end.

End Runtime.

(** ** Engine *)

Module Engine.

(** The class has one field, [defaultLoginUrl: string | undefined]. *)
Record t : Type := { defaultLoginUrl : option string }.

Section Methods.

Variable H : Host.
Variable P : Provider.

Definition constructor (environment : string) : M t :=
  if negb (toLowerCase environment =? "production")
     && negb (toLowerCase environment =? "sandbox")
  then throw (VErr (Error "Invalid org type !, your org type should be production or sandbox."))
  else if toLowerCase environment =? "production"
       then ret {| defaultLoginUrl := Some "https://login.salesforce.com/" |}
       else if toLowerCase environment =? "sandbox"
            then ret {| defaultLoginUrl := Some "https://test.salesforce.com/" |}
            else ret {| defaultLoginUrl := None |}.

(** [credential.username] is read for the key and again for the call; both
    reads give the same value. *)
Definition login (this : t) (credential : value) : M value :=
  let* name := member H credential "username" in
  let userKey := "con:" ++ ToString H name in
  CacheProvider.setCache H "currentCredentials" credential ;;
  let* cached := CacheProvider.hasCache H userKey in
  (if negb (truthy cached) then
     let* conn := new_Connection (defaultLoginUrl this) in
     let* pass := member H credential "password" in
     let* conn := Connection_login P conn name pass
                    (fun err => if truthy err then console_error err ;; ret tt else ret tt) in
     CacheProvider.setCache H userKey (VConn conn)
   else ret tt) ;;
  CacheProvider.getCache H userKey.

Definition getLoginUrl (this : t) : M value :=
  let* credential := CacheProvider.getCache H "currentCredentials" in
  let* conn := login this credential in
  let* url := member H conn "instanceUrl" in
  let* token := member H conn "accessToken" in
  ret (VStr (ToString H url ++ "//secur/frontdoor.jsp?sid=" ++ ToString H token)).

(** In the callback of [describeGlobal] the statements after [reject(err)]
    still run: [res] is [undefined] then, and [res.sobjects] throws. *)
Definition getAllObject (this : t) : M value :=
  let* credential := CacheProvider.getCache H "currentCredentials" in
  let* conn := login this credential in
  let* info := member H conn "userInfo" in
  let* id := member H info "id" in
  let objectListKey := "objectList:" ++ ToString H id in
  let* cached := CacheProvider.hasCache H objectListKey in
  if negb (truthy cached) then
    let* c := connection_of conn "describeGlobal" in
    let* history := send (ReqDescribeGlobal c) in
    match describeGlobal P history c with
    | Failure err =>
        thrown_in_callback (cannot_read "undefined" "sobjects") ;;
        throw (VErr err)
    | Success res =>
        in_callback (CacheProvider.setCache H objectListKey (VList (sobjects res))) ;;
        ret (VList (sobjects res))
    end
  else CacheProvider.getCache H objectListKey.

(** Here [setCache] comes before [resolve]: if it throws, the promise is
    left pending. *)
Definition getAllFields (this : t) (objectName : string) : M value :=
  let* credential := CacheProvider.getCache H "currentCredentials" in
  let* conn := login this credential in
  let* info := member H conn "userInfo" in
  let* id := member H info "id" in
  let objectFieldsKey := "objectFields:" ++ objectName ++ ":" ++ ToString H id in
  let* cached := CacheProvider.hasCache H objectFieldsKey in
  if negb (truthy cached) then
    let* c := connection_of conn "describe" in
    let* history := send (ReqDescribe c objectName) in
    match describe P history c objectName with
    | Failure err =>
        thrown_in_callback (cannot_read "undefined" "fields") ;;
        throw (VErr err)
    | Success meta =>
        let* stored := in_callback (CacheProvider.setCache H objectFieldsKey (VList (fields meta))) in
        if stored then ret (VList (fields meta)) else pending
    end
  else CacheProvider.getCache H objectFieldsKey.

(** Here the statements after [reject(err)] do not throw: [meta], which is
    [undefined] then, is stored as it is. *)
Definition describeObject (this : t) (objectName : string) : M value :=
  let* credential := CacheProvider.getCache H "currentCredentials" in
  let* conn := login this credential in
  let* info := member H conn "userInfo" in
  let* id := member H info "id" in
  let objectInfoKey := "objectInfo:" ++ objectName ++ ":" ++ ToString H id in
  let* cached := CacheProvider.hasCache H objectInfoKey in
  if negb (truthy cached) then
    let* c := connection_of conn "describe" in
    let* history := send (ReqDescribe c objectName) in
    match describe P history c objectName with
    | Failure err =>
        in_callback (CacheProvider.setCache H objectInfoKey VUndefined) ;;
        throw (VErr err)
    | Success meta =>
        let* stored := in_callback (CacheProvider.setCache H objectInfoKey (VMeta meta)) in
        if stored then ret (VMeta meta) else pending
    end
  else CacheProvider.getCache H objectInfoKey.

(** [reject(console.error(err))]: the promise is rejected with the value of
    [console.error(err)]. *)
Definition query (this : t) (soql : string) : M value :=
  let* credential := CacheProvider.getCache H "currentCredentials" in
  let* conn := login this credential in
  let* c := connection_of conn "query" in
  let* history := send (ReqQuery c soql) in
  match run_query P history c soql with
  | Failure err =>
      let* printed := console_error (VErr err) in
      throw printed
  | Success result => ret (VRows result)
  end.

(** The callback of a mutation: [if (err || !ret.success) { reject(err); }
    resolve(ret);]. Once rejected, the promise ignores [resolve]. When the
    provider answers without an error, [err] is [null]. *)
Definition settled (reply : callback SaveResult) : completion value :=
  match reply with
  | Failure err => Throw (VErr err)
  | Success res => if negb (success res) then Throw VNull else Normal (VSave res)
  end.

Definition save_callback (reply : callback SaveResult) : M value := lift (settled reply).

Definition insert (this : t) (recs : value) (object : string) : M value :=
  let* credential := CacheProvider.getCache H "currentCredentials" in
  let* conn := login this credential in
  let* c := connection_of conn "sobject" in
  let* history := send (ReqCreate c object recs) in
  save_callback (sobject_create P history c object recs).

Definition update (this : t) (recs : value) (object : string) : M value :=
  let* credential := CacheProvider.getCache H "currentCredentials" in
  let* conn := login this credential in
  let* c := connection_of conn "sobject" in
  let* history := send (ReqUpdate c object recs) in
  save_callback (sobject_update P history c object recs).

Definition upsert (this : t) (recs : value) (object : string) (extId : string) : M value :=
  let* credential := CacheProvider.getCache H "currentCredentials" in
  let* conn := login this credential in
  let* c := connection_of conn "sobject" in
  let* history := send (ReqUpsert c object recs extId) in
  save_callback (sobject_upsert P history c object recs extId).

Definition delete (this : t) (recs : value) (object : string) : M value :=
  let* credential := CacheProvider.getCache H "currentCredentials" in
  let* conn := login this credential in
  let* c := connection_of conn "sobject" in
  let* history := send (ReqDestroy c object recs) in
  save_callback (sobject_destroy P history c object recs).

End Methods.

End Engine.

(** ** Sequences of calls *)

(** A call of a public method of an Engine. *)
Inductive call : Type :=
| Login (credential : value)
| GetLoginUrl
| GetAllObject
| GetAllFields (objectName : string)
| DescribeObject (objectName : string)
| Query (soql : string)
| Insert (recs : value) (object : string)
| Update (recs : value) (object : string)
| Upsert (recs : value) (object : string) (extId : string)
| Delete (recs : value) (object : string).

Definition perform (H : Host) (P : Provider) (this : Engine.t) (c : call) : M value :=
  match c with
  | Login credential => Engine.login H P this credential
  | GetLoginUrl => Engine.getLoginUrl H P this
  | GetAllObject => Engine.getAllObject H P this
  | GetAllFields objectName => Engine.getAllFields H P this objectName
  | DescribeObject objectName => Engine.describeObject H P this objectName
  | Query soql => Engine.query H P this soql
  | Insert recs object => Engine.insert H P this recs object
  | Update recs object => Engine.update H P this recs object
  | Upsert recs object extId => Engine.upsert H P this recs object extId
  | Delete recs object => Engine.delete H P this recs object
  end.

(** The calls are made one after another, each on an Engine of its own
    choice, each run until its promise has settled. *)
Fixpoint run (H : Host) (P : Provider) (calls : list (Engine.t * call)) (s : state) : state :=
  match calls with
  | [] => s
  | (this, c) :: rest => run H P rest (snd (perform H P this c s))
  end.

(** ** Notions used in the statements *)

(** The cache object still has [Object.prototype] as its prototype and does
    not shadow [hasOwnProperty]: this is so when the module is loaded, and
    the Engine keeps it so. *)
Definition intact (o : JSObject.t) : Prop :=
  JSObject.prototype o = Some VObjectPrototype /\
  JSObject.own o !! "hasOwnProperty" = None.

(** The cache object with the own property [k] set to [v]. *)
Definition put (k : string) (v : value) (o : JSObject.t) : JSObject.t :=
  {| JSObject.own := <[k := v]> (JSObject.own o);
     JSObject.prototype := JSObject.prototype o |}.

(** The entry of the cache under [k], if the object owns one. *)
Definition entry (s : state) (k : string) : option value :=
  JSObject.own (cache s) !! k.

Definition present (s : state) (k : string) : bool :=
  match entry s k with Some _ => true | None => false end.

(** Session resolution, the first statement of every method but [login]:
    [await this.login(CacheProvider.getCache('currentCredentials'))]. *)
Definition resolve (H : Host) (P : Provider) (this : Engine.t) : M value :=
  let* credential := CacheProvider.getCache H "currentCredentials" in
  Engine.login H P this credential.

(** [conn.userInfo.id] as a template literal prints it. *)
Definition user_id_of (H : Host) (conn : value) : completion string :=
  match read H conn "userInfo" with
  | Normal info =>
      match read H info "id" with
      | Normal id => Normal (ToString H id)
      | Throw e => Throw e
      | Pending => Pending
      end
  | Throw e => Throw e
  | Pending => Pending
  end.

(** The shape every method but [login] has: resolve the session, then go on
    with the connection, or stop where resolution stopped. *)
Definition with_session {A : Type} (H : Host) (P : Provider) (this : Engine.t)
    (k : value -> M A) : M A :=
  fun s =>
    match resolve H P this s with
    | (Normal conn, s1) => k conn s1
    | (Throw e, s1) => (Throw e, s1)
    | (Pending, s1) => (Pending, s1)
    end.

(** The shape of a method that calls the provider: the receiver must be a
    connection. *)
Definition calling {A : Type} (conn : value) (method : string)
    (k : Connection -> M A) : M A :=
  fun s =>
    match receiver conn method with
    | Normal c => k c s
    | Throw e => (Throw e, s)
    | Pending => (Pending, s)
    end.

(** The shape of a describe method once the cache is intact: read the user
    id, answer from the cache if the key is there, ask the provider if not. *)
Definition memoized (H : Host) (conn : value) (key : string -> string) (method : string)
    (ask : string -> Connection -> M value) : M value :=
  fun s =>
    match user_id_of H conn with
    | Normal id =>
        match entry s (key id) with
        | Some v => (Normal v, s)
        | None => calling conn method (ask (key id)) s
        end
    | Throw e => (Throw e, s)
    | Pending => (Pending, s)
    end.

(** A field of a connection as a template literal prints it. *)
Definition printed (field : option string) : string :=
  match field with Some text => text | None => "undefined" end.

(** What the callback of a mutation makes of an answer of the provider:
    rejection with the error; rejection, with [null], when the envelope says
    [success = false]; fulfilment with the envelope otherwise. *)
Definition rejects_or_resolves (reply : callback SaveResult) (outcome : completion value)
  : Prop :=
  match reply with
  | Failure err => outcome = Throw (VErr err)
  | Success res => outcome = if success res then Normal (VSave res) else Throw VNull
  end.

(** The keys of the describe results. *)
Definition objectListKey (id : string) : string := "objectList:" ++ id.

Definition objectFieldsKey (objectName id : string) : string :=
  "objectFields:" ++ objectName ++ ":" ++ id.

Definition objectInfoKey (objectName id : string) : string :=
  "objectInfo:" ++ objectName ++ ":" ++ id.

Definition is_connect (r : request) : bool :=
  match r with ReqLogin _ _ _ => true | _ => false end.

Definition is_describe (r : request) : bool :=
  match r with ReqDescribeGlobal _ | ReqDescribe _ _ => true | _ => false end.

Definition is_query (r : request) : bool :=
  match r with ReqQuery _ _ => true | _ => false end.

(** The three describe methods side by side: the method, the key it caches
    under, the request it sends, and the value it makes of the answer. *)
Inductive describe_method : Type :=
| AllObjects
| AllFields (objectName : string)
| ObjectInfo (objectName : string).

Definition describe_call (H : Host) (P : Provider) (this : Engine.t) (m : describe_method)
  : M value :=
  match m with
  | AllObjects => Engine.getAllObject H P this
  | AllFields objectName => Engine.getAllFields H P this objectName
  | ObjectInfo objectName => Engine.describeObject H P this objectName
  end.

Definition describe_key (m : describe_method) (id : string) : string :=
  match m with
  | AllObjects => objectListKey id
  | AllFields objectName => objectFieldsKey objectName id
  | ObjectInfo objectName => objectInfoKey objectName id
  end.

Definition describe_request (m : describe_method) (c : Connection) : request :=
  match m with
  | AllObjects => ReqDescribeGlobal c
  | AllFields objectName | ObjectInfo objectName => ReqDescribe c objectName
  end.

Definition described (P : Provider) (m : describe_method) (history : list request)
    (c : Connection) : callback value :=
  match m with
  | AllObjects =>
      match describeGlobal P history c with
      | Failure err => Failure err
      | Success res => Success (VList (sobjects res))
      end
  | AllFields objectName =>
      match describe P history c objectName with
      | Failure err => Failure err
      | Success meta => Success (VList (fields meta))
      end
  | ObjectInfo objectName =>
      match describe P history c objectName with
      | Failure err => Failure err
      | Success meta => Success (VMeta meta)
      end
  end.

Definition nullish (v : value) : bool :=
  match v with VUndefined | VNull => true | _ => false end.

(** The key under which [login] caches the session of a credential. *)
Definition userKey (H : Host) (credential : value) : string :=
  "con:" ++ ToString H (get_property H credential "username").

(** The connection object [login] builds in state [s]. *)
Definition built (this : Engine.t) (s : state) : Connection :=
  {| conn_id := connections s; loginUrl := Engine.defaultLoginUrl this;
     instanceUrl := None; accessToken := None; userInfo := None |}.

(** The request [login] sends for a credential in state [s], and the answer
    of the provider to it. *)
Definition connect_request (H : Host) (this : Engine.t) (credential : value) (s : state)
  : request :=
  ReqLogin (built this s) (get_property H credential "username")
           (get_property H credential "password").

Definition connect_reply (H : Host) (P : Provider) (this : Engine.t) (credential : value)
    (s : state) : LoginReply :=
  connect P (requests s) (built this s) (get_property H credential "username")
          (get_property H credential "password").

(** The state in which the answer to the connect request arrives: the
    credential is current, the connection is built, the request is sent, and
    a reported error is on the console. *)
Definition connecting (H : Host) (P : Provider) (this : Engine.t) (credential : value)
    (s : state) : state :=
  {| cache := put "currentCredentials" credential (cache s);
     requests := requests s ++ [connect_request H this credential s];
     console := console s ++
                match reported (connect_reply H P this credential s) with
                | Some e => [VErr e]
                | None => []
                end;
     uncaught := uncaught s;
     connections := S (connections s) |}.

(** The queries and the describe requests the provider has received. *)
Definition queries (s : state) : list request := List.filter is_query (requests s).

Definition describes (s : state) : list request := List.filter is_describe (requests s).

(** A host and a provider to run examples with: the host knows no member of
    the objects it is asked about; the provider accepts the password
    ["secret"] and answers every other request with success. *)
Definition plain_host : Host :=
  {| host_get := fun _ _ => VUndefined;
     host_put := fun _ props k v => Normal (<[k := v]> props);
     host_call := fun _ _ _ => Normal VUndefined;
     host_to_string := fun _ => "[object Object]" |}.

Definition signed_in (name : value) : LoginReply :=
  {| reported := None; rejects := None;
     session_instanceUrl := Some "https://na1.salesforce.com";
     session_accessToken := Some "00Dxx!token";
     session_userInfo :=
       Some {| user_id := "005" ++ ToString plain_host name;
               organizationId := "00Dxx";
               user_url := "https://login.salesforce.com/id/00Dxx" |} |}.

(** A failed login that is told to the callback only. *)
Definition refused_quietly : LoginReply :=
  {| reported := Some (Error "INVALID_LOGIN"); rejects := None;
     session_instanceUrl := None; session_accessToken := None;
     session_userInfo := None |}.

(** A failed login that is told to the callback and rejects the promise. *)
Definition refused_loudly : LoginReply :=
  {| reported := Some (Error "INVALID_LOGIN"); rejects := Some (Error "INVALID_LOGIN");
     session_instanceUrl := None; session_accessToken := None;
     session_userInfo := None |}.

Definition saved : SaveResult := {| save_id := "001xx"; success := true; errors := [] |}.

Definition not_saved : SaveResult :=
  {| save_id := ""; success := false; errors := ["REQUIRED_FIELD_MISSING"] |}.

Definition secret (pass : value) : bool :=
  match pass with VStr p => p =? "secret" | _ => false end.

Definition friendly : Provider :=
  {| connect := fun _ _ name pass => if secret pass then signed_in name else refused_quietly;
     describeGlobal := fun _ _ => Success {| sobjects := ["Account"; "Contact"] |};
     describe := fun _ _ o => Success {| sobject_name := o; fields := ["Id"; "Name"] |};
     run_query := fun _ _ soql => Success {| totalSize := 1; records := [soql] |};
     sobject_create := fun _ _ _ _ => Success saved;
     sobject_update := fun _ _ _ _ => Success saved;
     sobject_upsert := fun _ _ _ _ _ => Success saved;
     sobject_destroy := fun _ _ _ _ => Success saved |}.

(** Like [friendly], but a wrong password also rejects the promise of
    [conn.login]. *)
Definition strict : Provider :=
  {| connect := fun _ _ name pass => if secret pass then signed_in name else refused_loudly;
     describeGlobal := describeGlobal friendly;
     describe := describe friendly;
     run_query := run_query friendly;
     sobject_create := sobject_create friendly;
     sobject_update := sobject_update friendly;
     sobject_upsert := sobject_upsert friendly;
     sobject_destroy := sobject_destroy friendly |}.

(** Like [friendly], but every request after the login fails, except that a
    describe request succeeds once one has failed; a record is refused
    without an error. *)
Definition unreliable : Provider :=
  {| connect := connect friendly;
     describeGlobal := fun history c =>
       if existsb is_describe history then describeGlobal friendly history c
       else Failure (Error "REQUEST_LIMIT_EXCEEDED");
     describe := fun history c o =>
       if existsb is_describe history then describe friendly history c o
       else Failure (Error "REQUEST_LIMIT_EXCEEDED");
     run_query := fun _ _ _ => Failure (Error "MALFORMED_QUERY");
     sobject_create := fun _ _ _ _ => Success not_saved;
     sobject_update := fun _ _ _ _ => Failure (Error "ECONNRESET");
     sobject_upsert := fun _ _ _ _ _ => Success not_saved;
     sobject_destroy := fun _ _ _ _ => Failure (Error "ECONNRESET") |}.

Definition production : Engine.t :=
  {| Engine.defaultLoginUrl := Some "https://login.salesforce.com/" |}.

Definition alice : value := VCred {| username := "alice"; password := "secret" |}.

Definition alice_mistyped : value := VCred {| username := "alice"; password := "WRONG" |}.

(** The state after [alice] has logged in at [friendly], and her session. *)
Definition alice_in : state := snd (Engine.login plain_host friendly production alice initial).

Definition alice_session : Connection :=
  answered (built production initial) (signed_in (VStr "alice")).

(** What a call may do to the cache and to the log of requests: the cache
    stays intact, an entry other than the current credential stays as it is,
    and requests are only added. *)
Definition keeps (s s' : state) : Prop :=
  intact (cache s') /\
  (forall k v, k <> "currentCredentials" -> entry s k = Some v -> entry s' k = Some v) /\
  (exists sent, requests s' = (requests s ++ sent)%list).

(** A call of a method other than [login]. *)
Definition resolves_first (c : call) : bool :=
  match c with Login _ => false | _ => true end.

(** An object name without a colon. *)
Fixpoint colon_free (s : string) : bool :=
  match s with
  | EmptyString => true
  | String c rest => negb (Ascii.eqb c ":"%char) && colon_free rest
  end.

(** Every connection in the cache, the current credential apart, was built
    by a [new] of this process, and no two keys hold the same one. *)
Definition sessions_apart (s : state) : Prop :=
  forall (k : string) (c : Connection),
    k <> "currentCredentials" -> entry s k = Some (VConn c) ->
    conn_id c < connections s /\
    forall (k' : string) (c' : Connection),
      k' <> "currentCredentials" -> entry s k' = Some (VConn c') ->
      conn_id c' = conn_id c -> k' = k.

(** From [s1] to [s2] no connection was built and none was stored. *)
Definition same_sessions (s1 s2 : state) : Prop :=
  connections s2 = connections s1 /\
  forall (k : string) (c : Connection),
    k <> "currentCredentials" -> entry s2 k = Some (VConn c) -> entry s1 k = Some (VConn c).

(** From [s] to [s'] connections were stored under one key at most, and they
    were built in between. *)
Definition adds_session (s s' : state) : Prop :=
  connections s <= connections s' /\
  exists new : string,
    forall (k : string) (c : Connection),
      k <> "currentCredentials" -> entry s' k = Some (VConn c) ->
      entry s k = Some (VConn c) \/
      (k = new /\ connections s <= conn_id c /\ conn_id c < connections s').

Definition bob : value := VCred {| username := "bob"; password := "secret" |}.

(** The state after a login of [alice] with a wrong password was refused by
    [friendly], which tells the callback only, and the handle it left. *)
Definition alice_refused : state :=
  snd (Engine.login plain_host friendly production alice_mistyped initial).

Definition alice_handle_refused : Connection :=
  answered (built production initial) refused_quietly.

(** Whether a request is a connect request with a username that prints as
    [u], the username whose session is cached under [con:u]. *)
Definition is_connect_for (H : Host) (u : string) (r : request) : bool :=
  match r with
  | ReqLogin _ name _ => ToString H name =? u
  | _ => false
  end.

(** The connect requests the provider has received for the username [u]. *)
Definition connects_for (H : Host) (u : string) (s : state) : list request :=
  List.filter (is_connect_for H u) (requests s).

(** The state after a login of [alice] with a wrong password was refused by
    [strict], which rejects the promise of [conn.login]. *)
Definition alice_rejected : state :=
  snd (Engine.login plain_host strict production alice_mistyped initial).

(** * Properties *)

(** Two keys that differ in a character of their fixed prefixes. *)
Ltac plain_key :=
  intros E; unfold userKey, objectListKey, objectFieldsKey, objectInfoKey in E;
  simpl in E; discriminate E.

Section Facts.

Variable H : Host.
Variable P : Provider.

(** ** The cache as long as it is intact *)

Lemma intact_empty : intact JSObject.empty.
Proof. split; reflexivity. Qed.

Lemma intact_put k v o : intact o -> k <> "hasOwnProperty" -> intact (put k v o).
Proof.
  intros [Hp Hh] Hk. split; simpl; [exact Hp |].
  rewrite lookup_insert_ne; [exact Hh | exact Hk].
Qed.

Lemma hasCache_intact k s :
  intact (cache s) ->
  CacheProvider.hasCache H k s = (Normal (VBool (present s k)), s).
Proof.
  intros [Hp Hh]. unfold CacheProvider.hasCache, JSObject.hasOwnProperty, JSObject.get.
  rewrite Hh, Hp. reflexivity.
Qed.

Lemma setCache_intact k v s :
  intact (cache s) -> k <> "__proto__" ->
  CacheProvider.setCache H k v s = (Normal tt, with_cache (put k v (cache s)) s).
Proof.
  intros [Hp _] Hk. unfold CacheProvider.setCache, JSObject.set, put.
  rewrite Hp. apply String.eqb_neq in Hk. rewrite Hk.
  destruct (JSObject.own (cache s) !! k); reflexivity.
Qed.

Lemma getCache_entry k v s :
  entry s k = Some v -> CacheProvider.getCache H k s = (Normal v, s).
Proof.
  unfold entry, CacheProvider.getCache, JSObject.get. intros ->. reflexivity.
Qed.

Lemma getCache_absent k s :
  intact (cache s) -> entry s k = None -> k <> "__proto__" ->
  CacheProvider.getCache H k s = (Normal (object_prototype_get k), s).
Proof.
  intros [Hp _] He Hk. unfold entry in He.
  unfold CacheProvider.getCache, JSObject.get. rewrite He, Hp.
  apply String.eqb_neq in Hk. rewrite Hk.
  unfold get_property. simpl. rewrite Hk. reflexivity.
Qed.

Lemma entry_put_eq k v s : entry (with_cache (put k v (cache s)) s) k = Some v.
Proof. unfold entry. simpl. apply lookup_insert_eq. Qed.

Lemma entry_put_ne k k' v s :
  k <> k' -> entry (with_cache (put k v (cache s)) s) k' = entry s k'.
Proof. intros Hk. unfold entry. simpl. apply lookup_insert_ne, Hk. Qed.

(** ** What calls keep *)

Lemma keeps_refl s : intact (cache s) -> keeps s s.
Proof. intros Hi. repeat split; [apply Hi.. | auto | exists []; symmetry; apply app_nil_r]. Qed.

Lemma keeps_trans s1 s2 s3 : keeps s1 s2 -> keeps s2 s3 -> keeps s1 s3.
Proof.
  intros (_ & E12 & l12 & R12) (I3 & E23 & l23 & R23). repeat split; [apply I3.. | |].
  - intros k v Hk He. apply E23, E12; assumption.
  - exists (l12 ++ l23)%list. rewrite R23, R12. symmetry. apply app_assoc.
Qed.

(** Setting a key that is absent, or the current credential. *)
Lemma keeps_put k v s :
  intact (cache s) -> k <> "hasOwnProperty" ->
  entry s k = None \/ k = "currentCredentials" ->
  keeps s (with_cache (put k v (cache s)) s).
Proof.
  intros Hi Hk Hfree. split; [| split].
  - simpl. apply intact_put; assumption.
  - intros k' v' Hk' He. rewrite entry_put_ne; [exact He |].
    intros ->. destruct Hfree as [Hnone | Hcur]; congruence.
  - exists []. simpl. symmetry. apply app_nil_r.
Qed.

Lemma keeps_log_request r s : intact (cache s) -> keeps s (log_request r s).
Proof. intros Hi. repeat split; [apply Hi.. | auto | exists [r]; reflexivity]. Qed.

Lemma keeps_log_uncaught e s : intact (cache s) -> keeps s (log_uncaught e s).
Proof.
  intros Hi. repeat split; [apply Hi.. | auto | exists []; symmetry; apply app_nil_r].
Qed.

Lemma keeps_log_console e s : intact (cache s) -> keeps s (log_console e s).
Proof.
  intros Hi. repeat split; [apply Hi.. | auto | exists []; symmetry; apply app_nil_r].
Qed.

(** ** login *)

(** The keys the Engine builds are neither [__proto__] nor [hasOwnProperty]
    nor the key of the current credential. *)
Lemma userKey_plain credential :
  userKey H credential <> "__proto__" /\ userKey H credential <> "hasOwnProperty" /\
  userKey H credential <> "currentCredentials".
Proof. unfold userKey. repeat split; intros E; simpl in E; discriminate E. Qed.

Lemma read_some v name : nullish v = false -> read H v name = Normal (get_property H v name).
Proof. destruct v; simpl; intros E; try discriminate E; reflexivity. Qed.

Lemma login_nullish this credential s :
  nullish credential = true ->
  Engine.login H P this credential s = (read H credential "username", s) /\
  exists e, read H credential "username" = Throw e.
Proof.
  destruct credential; simpl; intros E; try discriminate E;
    (split; [reflexivity | eexists; reflexivity]).
Qed.

Lemma login_cached this credential v s :
  intact (cache s) -> nullish credential = false ->
  entry s (userKey H credential) = Some v ->
  Engine.login H P this credential s =
    (Normal v, with_cache (put "currentCredentials" credential (cache s)) s).
Proof.
  intros Hi Hn He.
  destruct (userKey_plain credential) as (K1 & K2 & K3).
  unfold userKey in *.
  unfold Engine.login, member. rewrite read_some by exact Hn.
  cbv beta iota delta [bind lift].
  rewrite setCache_intact by (exact Hi || discriminate).
  rewrite hasCache_intact by (apply intact_put; [exact Hi | discriminate]).
  unfold present. rewrite entry_put_ne by (intros E; apply K3; symmetry; exact E).
  rewrite He. simpl.
  apply getCache_entry. rewrite entry_put_ne by (intros E; apply K3; symmetry; exact E).
  exact He.
Qed.

Lemma login_fresh this credential s :
  intact (cache s) -> nullish credential = false ->
  entry s (userKey H credential) = None ->
  Engine.login H P this credential s =
    let reply := connect_reply H P this credential s in
    let s1 := connecting H P this credential s in
    match rejects reply with
    | Some e => (Throw (VErr e), s1)
    | None =>
        let conn := VConn (answered (built this s) reply) in
        (Normal conn, with_cache (put (userKey H credential) conn (cache s1)) s1)
    end.
Proof.
  intros Hi Hn He.
  destruct (userKey_plain credential) as (K1 & K2 & K3).
  unfold userKey in *.
  unfold Engine.login, member. rewrite !read_some by exact Hn.
  cbv beta iota delta [bind lift].
  rewrite setCache_intact by (exact Hi || discriminate).
  rewrite hasCache_intact by (apply intact_put; [exact Hi | discriminate]).
  unfold present. rewrite entry_put_ne by (intros E; apply K3; symmetry; exact E).
  rewrite He. cbn [negb truthy].
  unfold connecting, connect_request, connect_reply.
  cbv beta iota delta [bind ret throw lift new_Connection Connection_login send console_error].
  cbn [fst snd cache requests console uncaught connections with_cache log_request].
  change {| conn_id := connections s; loginUrl := Engine.defaultLoginUrl this;
            instanceUrl := None; accessToken := None; userInfo := None |}
    with (built this s).
  set (reply := connect P (requests s) (built this s) _ _).
  assert (Hi' : intact (put "currentCredentials" credential (cache s)))
    by (apply intact_put; [exact Hi | discriminate]).
  destruct (reported reply) as [err |], (rejects reply) as [e |];
    cbn [truthy log_console cache requests console uncaught connections];
    rewrite ?app_nil_r;
    try (rewrite setCache_intact by assumption;
         erewrite getCache_entry by apply entry_put_eq);
    reflexivity.
Qed.

Lemma keeps_connecting this credential s :
  intact (cache s) -> keeps s (connecting H P this credential s).
Proof.
  intros Hi. split; [| split].
  - simpl. apply intact_put; [exact Hi | discriminate].
  - intros k v Hk He. unfold entry. simpl.
    rewrite lookup_insert_ne by congruence. exact He.
  - eexists. reflexivity.
Qed.

Lemma login_keeps this credential s :
  intact (cache s) -> keeps s (snd (Engine.login H P this credential s)).
Proof.
  intros Hi. destruct (nullish credential) eqn:Hn.
  - destruct (login_nullish this credential s Hn) as [-> _]. apply keeps_refl, Hi.
  - destruct (userKey_plain credential) as (K1 & K2 & K3).
    destruct (entry s (userKey H credential)) as [v |] eqn:He.
    + rewrite (login_cached this credential v s Hi Hn He). simpl.
      apply keeps_put; [exact Hi | discriminate | right; reflexivity].
    + rewrite (login_fresh this credential s Hi Hn He). cbv zeta.
      pose proof (keeps_connecting this credential s Hi) as Hc.
      destruct (rejects _); simpl; [exact Hc |].
      eapply keeps_trans; [exact Hc |].
      apply keeps_put; [apply Hc | exact K2 | left].
      unfold entry, connecting. simpl.
      rewrite lookup_insert_ne by congruence. exact He.
Qed.

(** [login] sends the provider nothing but a connect request. *)
Lemma login_sends this credential s :
  intact (cache s) ->
  exists sent,
    requests (snd (Engine.login H P this credential s)) = (requests s ++ sent)%list /\
    forallb is_connect sent = true.
Proof.
  intros Hi. destruct (nullish credential) eqn:Hn.
  - destruct (login_nullish this credential s Hn) as [-> _].
    exists []. split; [symmetry; apply app_nil_r | reflexivity].
  - destruct (entry s (userKey H credential)) as [v |] eqn:He.
    + rewrite (login_cached this credential v s Hi Hn He).
      exists []. split; [symmetry; apply app_nil_r | reflexivity].
    + rewrite (login_fresh this credential s Hi Hn He). cbv zeta.
      exists [connect_request H this credential s].
      destruct (rejects _); split; reflexivity.
Qed.

Lemma no_query_among_connects sent :
  forallb is_connect sent = true -> List.filter is_query sent = [].
Proof.
  induction sent as [| r sent IH]; [reflexivity |]. simpl.
  destruct r; simpl; try discriminate; exact IH.
Qed.

Lemma no_describe_among_connects sent :
  forallb is_connect sent = true -> List.filter is_describe sent = [].
Proof.
  induction sent as [| r sent IH]; [reflexivity |]. simpl.
  destruct r; simpl; try discriminate; exact IH.
Qed.

(** ** Session resolution *)

Lemma resolve_login this s :
  resolve H P this s =
  Engine.login H P this (JSObject.get H (cache s) "currentCredentials") s.
Proof. reflexivity. Qed.

Lemma resolve_keeps this s :
  intact (cache s) -> keeps s (snd (resolve H P this s)).
Proof. intros Hi. rewrite resolve_login. apply login_keeps, Hi. Qed.

Lemma resolve_sends this s :
  intact (cache s) ->
  queries (snd (resolve H P this s)) = queries s /\
  describes (snd (resolve H P this s)) = describes s.
Proof.
  intros Hi. rewrite resolve_login.
  destruct (login_sends this (JSObject.get H (cache s) "currentCredentials") s Hi)
    as (sent & Hr & Hc).
  unfold queries, describes. rewrite Hr, !List.filter_app.
  rewrite (no_query_among_connects sent Hc), (no_describe_among_connects sent Hc).
  rewrite !app_nil_r. split; reflexivity.
Qed.

(** Each method, in a state whose cache is intact, written out. *)

Lemma getAllObject_eq this s :
  intact (cache s) ->
  Engine.getAllObject H P this s =
  with_session H P this (fun conn =>
    memoized H conn objectListKey "describeGlobal" (fun key c s1 =>
      let s2 := log_request (ReqDescribeGlobal c) s1 in
      match describeGlobal P (requests s1) c with
      | Failure err =>
          (Throw (VErr err), log_uncaught (cannot_read "undefined" "sobjects") s2)
      | Success res =>
          (Normal (VList (sobjects res)),
           with_cache (put key (VList (sobjects res)) (cache s2)) s2)
      end)) s.
Proof.
  intros Hi. pose proof (resolve_keeps this s Hi) as Hk.
  unfold with_session, memoized, calling.
  rewrite resolve_login in *. unfold Engine.getAllObject.
  unfold bind at 1. unfold CacheProvider.getCache at 1.
  unfold user_id_of, objectListKey, member, connection_of.
  cbv beta iota delta [bind lift ret].
  destruct (Engine.login _ _ _ _ _) as [[conn | e |] s1]; try reflexivity.
  destruct Hk as (Hi1 & _). simpl in Hi1.
  destruct (read H conn "userInfo") as [info | e |]; try reflexivity.
  destruct (read H info "id") as [id | e |]; try reflexivity.
  rewrite hasCache_intact by exact Hi1. unfold present.
  destruct (entry s1 _) as [v |] eqn:He; cbn [negb truthy].
  - apply getCache_entry, He.
  - destruct (receiver conn "describeGlobal") as [c | e |]; try reflexivity.
    unfold send, thrown_in_callback, in_callback, throw, pending.
    cbn [requests log_request].
    destruct (describeGlobal P (requests s1) c) as [err | res]; [reflexivity |].
    rewrite setCache_intact by (exact Hi1 || plain_key).
    reflexivity.
Qed.

Lemma getAllFields_eq this o s :
  intact (cache s) ->
  Engine.getAllFields H P this o s =
  with_session H P this (fun conn =>
    memoized H conn (objectFieldsKey o) "describe" (fun key c s1 =>
      let s2 := log_request (ReqDescribe c o) s1 in
      match describe P (requests s1) c o with
      | Failure err =>
          (Throw (VErr err), log_uncaught (cannot_read "undefined" "fields") s2)
      | Success meta =>
          (Normal (VList (fields meta)),
           with_cache (put key (VList (fields meta)) (cache s2)) s2)
      end)) s.
Proof.
  intros Hi. pose proof (resolve_keeps this s Hi) as Hk.
  unfold with_session, memoized, calling.
  rewrite resolve_login in *. unfold Engine.getAllFields.
  unfold bind at 1. unfold CacheProvider.getCache at 1.
  unfold user_id_of, objectFieldsKey, member, connection_of.
  cbv beta iota delta [bind lift ret].
  destruct (Engine.login _ _ _ _ _) as [[conn | e |] s1]; try reflexivity.
  destruct Hk as (Hi1 & _). simpl in Hi1.
  destruct (read H conn "userInfo") as [info | e |]; try reflexivity.
  destruct (read H info "id") as [id | e |]; try reflexivity.
  rewrite hasCache_intact by exact Hi1. unfold present.
  destruct (entry s1 _) as [v |] eqn:He; cbn [negb truthy].
  - apply getCache_entry, He.
  - destruct (receiver conn "describe") as [c | e |]; try reflexivity.
    unfold send, thrown_in_callback, in_callback, throw, pending.
    cbn [requests log_request].
    destruct (describe P (requests s1) c o) as [err | meta]; [reflexivity |].
    rewrite setCache_intact by (exact Hi1 || plain_key).
    reflexivity.
Qed.

Lemma describeObject_eq this o s :
  intact (cache s) ->
  Engine.describeObject H P this o s =
  with_session H P this (fun conn =>
    memoized H conn (objectInfoKey o) "describe" (fun key c s1 =>
      let s2 := log_request (ReqDescribe c o) s1 in
      match describe P (requests s1) c o with
      | Failure err =>
          (Throw (VErr err), with_cache (put key VUndefined (cache s2)) s2)
      | Success meta =>
          (Normal (VMeta meta), with_cache (put key (VMeta meta) (cache s2)) s2)
      end)) s.
Proof.
  intros Hi. pose proof (resolve_keeps this s Hi) as Hk.
  unfold with_session, memoized, calling.
  rewrite resolve_login in *. unfold Engine.describeObject.
  unfold bind at 1. unfold CacheProvider.getCache at 1.
  unfold user_id_of, objectInfoKey, member, connection_of.
  cbv beta iota delta [bind lift ret].
  destruct (Engine.login _ _ _ _ _) as [[conn | e |] s1]; try reflexivity.
  destruct Hk as (Hi1 & _). simpl in Hi1.
  destruct (read H conn "userInfo") as [info | e |]; try reflexivity.
  destruct (read H info "id") as [id | e |]; try reflexivity.
  rewrite hasCache_intact by exact Hi1. unfold present.
  destruct (entry s1 _) as [v |] eqn:He; cbn [negb truthy].
  - apply getCache_entry, He.
  - destruct (receiver conn "describe") as [c | e |]; try reflexivity.
    unfold send, thrown_in_callback, in_callback, throw, pending.
    cbn [requests log_request].
    destruct (describe P (requests s1) c o) as [err | meta];
      rewrite setCache_intact by (exact Hi1 || plain_key); reflexivity.
Qed.

Lemma getLoginUrl_eq this s :
  Engine.getLoginUrl H P this s =
  with_session H P this (fun conn =>
    let* url := member H conn "instanceUrl" in
    let* token := member H conn "accessToken" in
    ret (VStr (ToString H url ++ "//secur/frontdoor.jsp?sid=" ++ ToString H token))) s.
Proof. reflexivity. Qed.

Lemma query_eq this soql s :
  Engine.query H P this soql s =
  with_session H P this (fun conn =>
    calling conn "query" (fun c s1 =>
      let s2 := log_request (ReqQuery c soql) s1 in
      match run_query P (requests s1) c soql with
      | Failure err => (Throw VUndefined, log_console (VErr err) s2)
      | Success result => (Normal (VRows result), s2)
      end)) s.
Proof.
  unfold with_session, calling. rewrite resolve_login. unfold Engine.query.
  unfold bind at 1. unfold CacheProvider.getCache at 1.
  unfold connection_of, send, console_error.
  cbv beta iota delta [bind lift ret throw].
  destruct (Engine.login _ _ _ _ _) as [[conn | e |] s1]; try reflexivity.
  destruct (receiver conn "query") as [c | e |]; try reflexivity.
  cbn [requests log_request].
  destruct (run_query P (requests s1) c soql); reflexivity.
Qed.

Lemma insert_eq this recs o s :
  Engine.insert H P this recs o s =
  with_session H P this (fun conn =>
    calling conn "sobject" (fun c s1 =>
      (Engine.settled (sobject_create P (requests s1) c o recs),
       log_request (ReqCreate c o recs) s1))) s.
Proof.
  unfold with_session, calling. rewrite resolve_login. unfold Engine.insert.
  unfold bind at 1. unfold CacheProvider.getCache at 1.
  unfold connection_of, send, Engine.save_callback.
  cbv beta iota delta [bind lift ret throw].
  destruct (Engine.login _ _ _ _ _) as [[conn | e |] s1]; reflexivity.
Qed.

Lemma update_eq this recs o s :
  Engine.update H P this recs o s =
  with_session H P this (fun conn =>
    calling conn "sobject" (fun c s1 =>
      (Engine.settled (sobject_update P (requests s1) c o recs),
       log_request (ReqUpdate c o recs) s1))) s.
Proof.
  unfold with_session, calling. rewrite resolve_login. unfold Engine.update.
  unfold bind at 1. unfold CacheProvider.getCache at 1.
  unfold connection_of, send, Engine.save_callback.
  cbv beta iota delta [bind lift ret throw].
  destruct (Engine.login _ _ _ _ _) as [[conn | e |] s1]; reflexivity.
Qed.

Lemma upsert_eq this recs o extId s :
  Engine.upsert H P this recs o extId s =
  with_session H P this (fun conn =>
    calling conn "sobject" (fun c s1 =>
      (Engine.settled (sobject_upsert P (requests s1) c o recs extId),
       log_request (ReqUpsert c o recs extId) s1))) s.
Proof.
  unfold with_session, calling. rewrite resolve_login. unfold Engine.upsert.
  unfold bind at 1. unfold CacheProvider.getCache at 1.
  unfold connection_of, send, Engine.save_callback.
  cbv beta iota delta [bind lift ret throw].
  destruct (Engine.login _ _ _ _ _) as [[conn | e |] s1]; reflexivity.
Qed.

Lemma delete_eq this recs o s :
  Engine.delete H P this recs o s =
  with_session H P this (fun conn =>
    calling conn "sobject" (fun c s1 =>
      (Engine.settled (sobject_destroy P (requests s1) c o recs),
       log_request (ReqDestroy c o recs) s1))) s.
Proof.
  unfold with_session, calling. rewrite resolve_login. unfold Engine.delete.
  unfold bind at 1. unfold CacheProvider.getCache at 1.
  unfold connection_of, send, Engine.save_callback.
  cbv beta iota delta [bind lift ret throw].
  destruct (Engine.login _ _ _ _ _) as [[conn | e |] s1]; reflexivity.
Qed.

(** ** Every call keeps the cache intact and its entries in place *)

Lemma with_session_keeps {A : Type} this (k : value -> M A) s :
  (forall conn s1, intact (cache s1) -> keeps s1 (snd (k conn s1))) ->
  intact (cache s) -> keeps s (snd (with_session H P this k s)).
Proof.
  intros Hk Hi. pose proof (resolve_keeps this s Hi) as Hr. unfold with_session.
  destruct (resolve H P this s) as [[conn | e |] s1]; simpl in Hr; try exact Hr.
  eapply keeps_trans; [exact Hr |]. apply Hk, Hr.
Qed.

Lemma calling_keeps {A : Type} conn method (k : Connection -> M A) s :
  (forall c, keeps s (snd (k c s))) ->
  intact (cache s) -> keeps s (snd (calling conn method k s)).
Proof.
  intros Hk Hi. unfold calling.
  destruct (receiver conn method); simpl; [apply Hk | apply keeps_refl, Hi ..].
Qed.

Lemma memoized_keeps conn key method ask s :
  (forall id c, entry s (key id) = None -> keeps s (snd (ask (key id) c s))) ->
  intact (cache s) -> keeps s (snd (memoized H conn key method ask s)).
Proof.
  intros Hk Hi. unfold memoized.
  destruct (user_id_of H conn) as [id | e |]; simpl; try (apply keeps_refl, Hi).
  destruct (entry s (key id)) eqn:He; simpl; [apply keeps_refl, Hi |].
  apply calling_keeps; [| exact Hi]. intros c. apply Hk, He.
Qed.

(** The provider was asked, and the answer was stored under an absent key. *)
Lemma keeps_stored r key v s :
  intact (cache s) -> key <> "hasOwnProperty" -> entry s key = None ->
  keeps s (with_cache (put key v (cache (log_request r s))) (log_request r s)).
Proof.
  intros Hi Hk He. eapply keeps_trans; [apply keeps_log_request, Hi |].
  apply keeps_put; [exact Hi | exact Hk | left; exact He].
Qed.

Lemma keeps_asked r e s :
  intact (cache s) -> keeps s (log_uncaught e (log_request r s)).
Proof.
  intros Hi. eapply keeps_trans; [apply keeps_log_request, Hi |].
  apply keeps_log_uncaught, Hi.
Qed.

Lemma perform_keeps this c s :
  intact (cache s) -> keeps s (snd (perform H P this c s)).
Proof.
  intros Hi. destruct c; simpl.
  - apply login_keeps, Hi.
  - rewrite getLoginUrl_eq. apply with_session_keeps; [| exact Hi].
    intros conn s1 Hi1. unfold member, bind, lift, ret.
    destruct (read H conn "instanceUrl"); simpl; try (apply keeps_refl, Hi1).
    destruct (read H conn "accessToken"); simpl; apply keeps_refl, Hi1.
  - rewrite getAllObject_eq by exact Hi. apply with_session_keeps; [| exact Hi].
    intros conn s1 Hi1. apply memoized_keeps; [| exact Hi1]. intros id c He.
    destruct (describeGlobal P (requests s1) c); simpl.
    + apply keeps_asked, Hi1.
    + apply keeps_stored; [exact Hi1 | plain_key | exact He].
  - rewrite getAllFields_eq by exact Hi. apply with_session_keeps; [| exact Hi].
    intros conn s1 Hi1. apply memoized_keeps; [| exact Hi1]. intros id c He.
    destruct (describe P (requests s1) c objectName); simpl.
    + apply keeps_asked, Hi1.
    + apply keeps_stored; [exact Hi1 | plain_key | exact He].
  - rewrite describeObject_eq by exact Hi. apply with_session_keeps; [| exact Hi].
    intros conn s1 Hi1. apply memoized_keeps; [| exact Hi1]. intros id c He.
    destruct (describe P (requests s1) c objectName); simpl;
      (apply keeps_stored; [exact Hi1 | plain_key | exact He]).
  - rewrite query_eq. apply with_session_keeps; [| exact Hi].
    intros conn s1 Hi1. apply calling_keeps; [| exact Hi1]. intros c.
    destruct (run_query P (requests s1) c soql); simpl.
    + eapply keeps_trans; [apply keeps_log_request, Hi1 |]. apply keeps_log_console, Hi1.
    + apply keeps_log_request, Hi1.
  - rewrite insert_eq. apply with_session_keeps; [| exact Hi].
    intros conn s1 Hi1. apply calling_keeps; [| exact Hi1]. intros c.
    apply keeps_log_request, Hi1.
  - rewrite update_eq. apply with_session_keeps; [| exact Hi].
    intros conn s1 Hi1. apply calling_keeps; [| exact Hi1]. intros c.
    apply keeps_log_request, Hi1.
  - rewrite upsert_eq. apply with_session_keeps; [| exact Hi].
    intros conn s1 Hi1. apply calling_keeps; [| exact Hi1]. intros c.
    apply keeps_log_request, Hi1.
  - rewrite delete_eq. apply with_session_keeps; [| exact Hi].
    intros conn s1 Hi1. apply calling_keeps; [| exact Hi1]. intros c.
    apply keeps_log_request, Hi1.
Qed.

Lemma run_keeps calls s :
  intact (cache s) -> keeps s (run H P calls s).
Proof.
  revert s. induction calls as [| [this c] rest IH]; intros s Hi; simpl.
  - apply keeps_refl, Hi.
  - pose proof (perform_keeps this c s Hi) as Hp.
    eapply keeps_trans; [exact Hp |]. apply IH, Hp.
Qed.

(** ** No call connects again for a username whose session is cached *)

Lemma connects_for_asked u r s' s :
  requests s' = (requests s ++ [r])%list -> is_connect_for H u r = false ->
  connects_for H u s' = connects_for H u s.
Proof.
  intros Hr Hn. unfold connects_for. rewrite Hr, List.filter_app. simpl.
  rewrite Hn. apply app_nil_r.
Qed.

Lemma login_quiet this credential u h s :
  intact (cache s) -> entry s ("con:" ++ u) = Some h ->
  connects_for H u (snd (Engine.login H P this credential s)) = connects_for H u s.
Proof.
  intros Hi Hu. destruct (nullish credential) eqn:Hn.
  - destruct (login_nullish this credential s Hn) as [-> _]. reflexivity.
  - destruct (entry s (userKey H credential)) as [v |] eqn:He.
    + rewrite (login_cached this credential v s Hi Hn He). reflexivity.
    + rewrite (login_fresh this credential s Hi Hn He). cbv zeta.
      assert (Hne : is_connect_for H u (connect_request H this credential s) = false).
      { unfold connect_request, is_connect_for. apply String.eqb_neq. intros E.
        unfold userKey in He. rewrite E in He. congruence. }
      destruct (rejects _); simpl;
        apply (connects_for_asked u (connect_request H this credential s));
        (reflexivity || exact Hne).
Qed.

Lemma with_session_quiet {A : Type} this (k : value -> M A) u h s :
  (forall conn s1, connects_for H u (snd (k conn s1)) = connects_for H u s1) ->
  intact (cache s) -> entry s ("con:" ++ u) = Some h ->
  connects_for H u (snd (with_session H P this k s)) = connects_for H u s.
Proof.
  intros Hk Hi Hu.
  pose proof (login_quiet this (JSObject.get H (cache s) "currentCredentials") u h s Hi Hu)
    as Hr.
  rewrite <- resolve_login in Hr. unfold with_session.
  destruct (resolve H P this s) as [[conn | e |] s1]; simpl in Hr; try exact Hr.
  rewrite Hk. exact Hr.
Qed.

Lemma calling_quiet {A : Type} conn method (k : Connection -> M A) u s :
  (forall c, connects_for H u (snd (k c s)) = connects_for H u s) ->
  connects_for H u (snd (calling conn method k s)) = connects_for H u s.
Proof.
  intros Hk. unfold calling. destruct (receiver conn method); simpl; [apply Hk | reflexivity ..].
Qed.

Lemma memoized_quiet conn key method ask u s :
  (forall id c, connects_for H u (snd (ask (key id) c s)) = connects_for H u s) ->
  connects_for H u (snd (memoized H conn key method ask s)) = connects_for H u s.
Proof.
  intros Hk. unfold memoized.
  destruct (user_id_of H conn) as [id | e |]; simpl; try reflexivity.
  destruct (entry s (key id)); simpl; [reflexivity |].
  apply calling_quiet. intros c. apply Hk.
Qed.

Lemma perform_quiet this c u h s :
  intact (cache s) -> entry s ("con:" ++ u) = Some h ->
  connects_for H u (snd (perform H P this c s)) = connects_for H u s.
Proof.
  intros Hi Hu. destruct c; simpl.
  - apply (login_quiet this credential u h s Hi Hu).
  - rewrite getLoginUrl_eq. apply (with_session_quiet this _ u h s); [| exact Hi | exact Hu].
    intros conn s1. unfold member, bind, lift, ret.
    destruct (read H conn "instanceUrl"); simpl; try reflexivity.
    destruct (read H conn "accessToken"); reflexivity.
  - rewrite getAllObject_eq by exact Hi.
    apply (with_session_quiet this _ u h s); [| exact Hi | exact Hu].
    intros conn s1. apply memoized_quiet. intros id c.
    destruct (describeGlobal P (requests s1) c); simpl;
      apply (connects_for_asked u (ReqDescribeGlobal c)); reflexivity.
  - rewrite getAllFields_eq by exact Hi.
    apply (with_session_quiet this _ u h s); [| exact Hi | exact Hu].
    intros conn s1. apply memoized_quiet. intros id c.
    destruct (describe P (requests s1) c objectName); simpl;
      apply (connects_for_asked u (ReqDescribe c objectName)); reflexivity.
  - rewrite describeObject_eq by exact Hi.
    apply (with_session_quiet this _ u h s); [| exact Hi | exact Hu].
    intros conn s1. apply memoized_quiet. intros id c.
    destruct (describe P (requests s1) c objectName); simpl;
      apply (connects_for_asked u (ReqDescribe c objectName)); reflexivity.
  - rewrite query_eq. apply (with_session_quiet this _ u h s); [| exact Hi | exact Hu].
    intros conn s1. apply calling_quiet. intros c.
    destruct (run_query P (requests s1) c soql); simpl;
      apply (connects_for_asked u (ReqQuery c soql)); reflexivity.
  - rewrite insert_eq. apply (with_session_quiet this _ u h s); [| exact Hi | exact Hu].
    intros conn s1. apply calling_quiet. intros c.
    apply (connects_for_asked u (ReqCreate c object recs)); reflexivity.
  - rewrite update_eq. apply (with_session_quiet this _ u h s); [| exact Hi | exact Hu].
    intros conn s1. apply calling_quiet. intros c.
    apply (connects_for_asked u (ReqUpdate c object recs)); reflexivity.
  - rewrite upsert_eq. apply (with_session_quiet this _ u h s); [| exact Hi | exact Hu].
    intros conn s1. apply calling_quiet. intros c.
    apply (connects_for_asked u (ReqUpsert c object recs extId)); reflexivity.
  - rewrite delete_eq. apply (with_session_quiet this _ u h s); [| exact Hi | exact Hu].
    intros conn s1. apply calling_quiet. intros c.
    apply (connects_for_asked u (ReqDestroy c object recs)); reflexivity.
Qed.

Lemma run_quiet calls u h s :
  intact (cache s) -> entry s ("con:" ++ u) = Some h ->
  connects_for H u (run H P calls s) = connects_for H u s.
Proof.
  revert s. induction calls as [| [this c] rest IH]; intros s Hi Hu; simpl; [reflexivity |].
  destruct (perform_keeps this c s Hi) as (Hi1 & Hkeep & _).
  rewrite IH; [apply (perform_quiet this c u h s Hi Hu) | exact Hi1 |].
  apply Hkeep; [discriminate | exact Hu].
Qed.

End Facts.

(** * The claims *)

Section Claims.

Variable H : Host.
Variable P : Provider.

(** ** The constructor *)

Lemma toLowerCase_Production : toLowerCase "Production" = "production".
Proof. reflexivity. Qed.

(** C2. For every string [environment] and every state, the constructor
    leaves the state as it is and ends as the lower-cased selector says: with
    an Engine on [https://login.salesforce.com/] when it is ["production"],
    with one on [https://test.salesforce.com/] when it is ["sandbox"], and
    with the error "Invalid org type" for anything else. So it succeeds
    exactly when the lower-cased selector is one of the two words, as it does
    for ["Production"], and an Engine it builds has one of the two URLs. *)
Theorem constructor_selects_endpoint :
  forall (environment : string) (s : state),
    Engine.constructor environment s =
      (if toLowerCase environment =? "production"
       then Normal {| Engine.defaultLoginUrl := Some "https://login.salesforce.com/" |}
       else if toLowerCase environment =? "sandbox"
            then Normal {| Engine.defaultLoginUrl := Some "https://test.salesforce.com/" |}
            else Throw (VErr (Error
                   "Invalid org type !, your org type should be production or sandbox.")),
       s)
    /\ ((exists this, Engine.constructor environment s = (Normal this, s)) <->
        (toLowerCase environment = "production" \/ toLowerCase environment = "sandbox"))
    /\ (forall this, Engine.constructor environment s = (Normal this, s) ->
        Engine.defaultLoginUrl this = Some "https://login.salesforce.com/" \/
        Engine.defaultLoginUrl this = Some "https://test.salesforce.com/")
    /\ Engine.constructor "Production" s =
         (Normal {| Engine.defaultLoginUrl := Some "https://login.salesforce.com/" |}, s).
Proof.
  intros environment s. unfold Engine.constructor, throw, ret.
  destruct (toLowerCase environment =? "production") eqn:Ep;
    [| destruct (toLowerCase environment =? "sandbox") eqn:Es]; simpl.
  - apply String.eqb_eq in Ep. repeat split.
    + intros _. left. exact Ep.
    + intros _. eexists. reflexivity.
    + intros this E. injection E as <-. left. reflexivity.
  - apply String.eqb_eq in Es. apply String.eqb_neq in Ep. repeat split.
    + intros _. right. exact Es.
    + intros _. eexists. reflexivity.
    + intros this E. injection E as <-. right. reflexivity.
  - apply String.eqb_neq in Ep, Es. repeat split.
    + intros [this E]. discriminate E.
    + intros [E | E]; contradiction.
    + intros this E. discriminate E.
Qed.

(** ** login *)

(** C1, as amended. Let [login] be called with a credential of username
    [u] in a state whose cache is intact. The call sends the provider at
    most one request, a connect request. If it is fulfilled with the handle
    [h], then from then on, whatever calls the Engines perform in between,
    the provider receives no further connect request for [u], the cache
    holds [h] under the key of [u], and a [login] with that username, with
    any password and on any Engine, is fulfilled with the same [h] and
    sends the provider nothing. If it rejects, it has sent a connect
    request and stored no handle under the key of [u], and the next
    [login] with that username sends a connect request again. *)
Theorem login_memoized :
  forall (this this' : Engine.t) (u p p' : string) (s : state)
         (calls : list (Engine.t * call)),
    intact (cache s) ->
    let c := VCred {| username := u; password := p |} in
    let c' := VCred {| username := u; password := p' |} in
    let (outcome, s1) := Engine.login H P this c s in
    (requests s1 = requests s \/
     requests s1 = (requests s ++ [connect_request H this c s])%list)
    /\ (forall h : value, outcome = Normal h ->
        let s2 := run H P calls s1 in
        let again := Engine.login H P this' c' s2 in
        connects_for H u s2 = connects_for H u s1
        /\ entry s2 ("con:" ++ u) = Some h
        /\ fst again = Normal h
        /\ requests (snd again) = requests s2)
    /\ (forall e : value, outcome = Throw e ->
        let again := Engine.login H P this' c' s1 in
        entry s1 ("con:" ++ u) = None
        /\ requests s1 = (requests s ++ [connect_request H this c s])%list
        /\ requests (snd again) = (requests s1 ++ [connect_request H this' c' s1])%list).
Proof.
  intros this this' u p p' s calls Hi. cbv zeta.
  set (c := {| username := u; password := p |}).
  set (c' := {| username := u; password := p' |}).
  assert (Hmemo : forall (h : value) (s1 : state),
             intact (cache s1) -> entry s1 ("con:" ++ u) = Some h ->
             connects_for H u (run H P calls s1) = connects_for H u s1
             /\ entry (run H P calls s1) ("con:" ++ u) = Some h
             /\ fst (Engine.login H P this' (VCred c') (run H P calls s1)) = Normal h
             /\ requests (snd (Engine.login H P this' (VCred c') (run H P calls s1)))
                = requests (run H P calls s1)).
  { intros h s1 Hi1 He1.
    destruct (run_keeps H P calls s1 Hi1) as (Hi2 & Hkeep & _).
    assert (He2 : entry (run H P calls s1) ("con:" ++ u) = Some h)
      by (apply Hkeep; [discriminate | exact He1]).
    split; [apply (run_quiet H P calls u h s1 Hi1 He1) |].
    split; [exact He2 |].
    rewrite (login_cached H P this' (VCred c') h _ Hi2 eq_refl He2).
    split; reflexivity. }
  destruct (entry s (userKey H (VCred c))) as [v |] eqn:He.
  - rewrite (login_cached H P this (VCred c) v s Hi eq_refl He).
    split; [left; reflexivity |]. split; [| intros e E; discriminate E].
    intros h E. injection E as <-. apply Hmemo.
    + simpl. apply intact_put; [exact Hi | discriminate].
    + rewrite entry_put_ne by discriminate. exact He.
  - rewrite (login_fresh H P this (VCred c) s Hi eq_refl He). cbv zeta.
    pose proof (keeps_connecting H P this (VCred c) s Hi) as (Hic & _ & _).
    assert (Hec : entry (connecting H P this (VCred c) s) ("con:" ++ u) = None).
    { unfold entry, connecting. simpl. rewrite lookup_insert_ne by discriminate. exact He. }
    destruct (rejects _) as [err |].
    + split; [right; reflexivity |]. split; [intros h E; discriminate E |].
      intros e _. split; [exact Hec |]. split; [reflexivity |].
      rewrite (login_fresh H P this' (VCred c') _ Hic eq_refl Hec). cbv zeta.
      destruct (rejects _); reflexivity.
    + split; [right; reflexivity |]. split; [| intros e E; discriminate E].
      intros h E. injection E as <-. apply Hmemo.
      * simpl. apply intact_put; [exact Hic | discriminate].
      * unfold entry. simpl. apply lookup_insert_eq.
Qed.

(** C4, as amended. Let [login] be called with a credential whose username
    has no session in the intact cache, and let the provider report a
    failure of the connect request to the callback. The failure is printed
    on the console. If the promise of [conn.login] is fulfilled all the same,
    [login] does not reject: the connection, in whatever state the provider
    left it, is stored under the key of the username and returned. If that
    promise rejects, [login] rejects with its error and nothing is stored
    under the key. *)
Theorem login_reported_failure :
  forall (this : Engine.t) (c : Credential) (s : state) (err : error),
    intact (cache s) ->
    entry s ("con:" ++ username c) = None ->
    reported (connect_reply H P this (VCred c) s) = Some err ->
    let reply := connect_reply H P this (VCred c) s in
    let conn := VConn (answered (built this s) reply) in
    let (outcome, s') := Engine.login H P this (VCred c) s in
    console s' = (console s ++ [VErr err])%list /\
    match rejects reply with
    | None => outcome = Normal conn /\ entry s' ("con:" ++ username c) = Some conn
    | Some e => outcome = Throw (VErr e) /\ entry s' ("con:" ++ username c) = None
    end.
Proof.
  intros this c s err Hi He Hrep. cbv zeta.
  rewrite (login_fresh H P this (VCred c) s Hi eq_refl He). cbv zeta.
  destruct (rejects (connect_reply H P this (VCred c) s)) as [e |].
  - split; [| split; [reflexivity |]].
    + unfold connecting. simpl. rewrite Hrep. reflexivity.
    + unfold entry, connecting. simpl.
      rewrite lookup_insert_ne by discriminate. exact He.
  - split; [| split; [reflexivity |]].
    + unfold connecting. simpl. rewrite Hrep. reflexivity.
    + unfold entry. simpl. apply lookup_insert_eq.
Qed.

(** ** getLoginUrl *)

(** C7, as amended. In a state whose cache is intact and holds no current
    credential, [getLoginUrl] rejects, with the [TypeError] that reading
    [username] off [undefined] raises, and changes nothing. When a
    credential is current and its session resolves to a connection,
    [getLoginUrl] is fulfilled with the instance URL of that connection,
    followed by [//secur/frontdoor.jsp?sid=] and its access token, a field
    the connection lacks being printed as [undefined]. When a credential is
    current and its session resolution rejects, [getLoginUrl] rejects with
    the same error and gives no URL. *)
Theorem getLoginUrl_contract :
  forall (this : Engine.t) (s : state),
    intact (cache s) ->
    (entry s "currentCredentials" = None ->
     Engine.getLoginUrl H P this s = (Throw (cannot_read "undefined" "username"), s))
    /\ (forall (credential : value) (c : Connection) (s1 : state),
         entry s "currentCredentials" = Some credential ->
         Engine.login H P this credential s = (Normal (VConn c), s1) ->
         Engine.getLoginUrl H P this s =
           (Normal (VStr (printed (instanceUrl c) ++ "//secur/frontdoor.jsp?sid="
                          ++ printed (accessToken c))), s1))
    /\ (forall (credential e : value) (s1 : state),
         entry s "currentCredentials" = Some credential ->
         Engine.login H P this credential s = (Throw e, s1) ->
         Engine.getLoginUrl H P this s = (Throw e, s1)).
Proof.
  intros this s Hi. split; [| split].
  - intros He. rewrite getLoginUrl_eq. unfold with_session.
    rewrite resolve_login.
    pose proof (getCache_absent H "currentCredentials" s Hi He) as Hg.
    unfold CacheProvider.getCache in Hg.
    assert (Hu : JSObject.get H (cache s) "currentCredentials" = VUndefined).
    { specialize (Hg ltac:(discriminate)). injection Hg as ->. reflexivity. }
    rewrite Hu. reflexivity.
  - intros credential c s1 He Hlogin. rewrite getLoginUrl_eq. unfold with_session.
    rewrite resolve_login.
    pose proof (getCache_entry H "currentCredentials" credential s He) as Hg.
    unfold CacheProvider.getCache in Hg. injection Hg as ->.
    rewrite Hlogin. unfold member, bind, lift, ret, read, get_property. simpl.
    destruct (instanceUrl c), (accessToken c); reflexivity.
  - intros credential e s1 He Hlogin. rewrite getLoginUrl_eq. unfold with_session.
    rewrite resolve_login.
    pose proof (getCache_entry H "currentCredentials" credential s He) as Hg.
    unfold CacheProvider.getCache in Hg. injection Hg as ->.
    rewrite Hlogin. reflexivity.
Qed.

(** ** query *)

(** C6 is what the code misses: when the provider answers a query with an
    error, [query] prints the error on the console and rejects with
    [undefined], the value of [console.error], not with the error. *)
Theorem query_rejects_with_undefined :
  forall (this : Engine.t) (soql : string) (s s1 : state) (c : Connection) (err : error),
    resolve H P this s = (Normal (VConn c), s1) ->
    run_query P (requests s1) c soql = Failure err ->
    Engine.query H P this soql s =
      (Throw VUndefined, log_console (VErr err) (log_request (ReqQuery c soql) s1)).
Proof.
  intros this soql s s1 c err Hres Hfail.
  rewrite query_eq. unfold with_session, calling. rewrite Hres. simpl.
  rewrite Hfail. reflexivity.
Qed.

(** C9, as amended. Let the cache be intact. When session resolution gives
    a connection, [query] sends the provider exactly one query, with the
    SOQL string it was given, right after session resolution; its outcome is
    made from the answer to that request, and the cache is as session
    resolution left it. When session resolution rejects, [query] rejects
    likewise and sends no query. So two invocations that both resolve a
    session send two queries, each with its own string. *)
Theorem query_asks_once :
  forall (this : Engine.t) (soql : string) (s s1 : state),
    intact (cache s) ->
    (forall c : Connection,
       resolve H P this s = (Normal (VConn c), s1) ->
       let (outcome, s2) := Engine.query H P this soql s in
       requests s2 = (requests s1 ++ [ReqQuery c soql])%list
       /\ queries s2 = (queries s ++ [ReqQuery c soql])%list
       /\ cache s2 = cache s1
       /\ outcome = match run_query P (requests s1) c soql with
                    | Failure _ => Throw VUndefined
                    | Success result => Normal (VRows result)
                    end)
    /\ (forall e : value,
         resolve H P this s = (Throw e, s1) ->
         Engine.query H P this soql s = (Throw e, s1) /\ queries s1 = queries s)
    /\ (forall (c c' : Connection) (this' : Engine.t) (soql' : string) (s3 : state),
         resolve H P this s = (Normal (VConn c), s1) ->
         let s2 := snd (Engine.query H P this soql s) in
         resolve H P this' s2 = (Normal (VConn c'), s3) ->
         queries (snd (Engine.query H P this' soql' s2)) =
           (queries s ++ [ReqQuery c soql; ReqQuery c' soql'])%list).
Proof.
  intros this soql s s1 Hi.
  assert (Hone : forall this0 soql0 s0 s10 c,
             intact (cache s0) ->
             resolve H P this0 s0 = (Normal (VConn c), s10) ->
             requests (snd (Engine.query H P this0 soql0 s0)) =
               (requests s10 ++ [ReqQuery c soql0])%list
             /\ queries (snd (Engine.query H P this0 soql0 s0)) =
                  (queries s0 ++ [ReqQuery c soql0])%list
             /\ cache (snd (Engine.query H P this0 soql0 s0)) = cache s10
             /\ fst (Engine.query H P this0 soql0 s0) =
                  match run_query P (requests s10) c soql0 with
                  | Failure _ => Throw VUndefined
                  | Success result => Normal (VRows result)
                  end).
  { intros this0 soql0 s0 s10 c Hi0 Hres.
    destruct (resolve_sends H P this0 s0 Hi0) as (Hq & _). rewrite Hres in Hq. simpl in Hq.
    rewrite query_eq. unfold with_session, calling. rewrite Hres. simpl.
    destruct (run_query P (requests s10) c soql0); simpl;
      (repeat split; try reflexivity;
       unfold queries in *; simpl; rewrite List.filter_app, Hq; reflexivity). }
  split; [| split].
  - intros c Hres. destruct (Hone this soql s s1 c Hi Hres) as (Hr & Hq & Hc & Ho).
    destruct (Engine.query H P this soql s) as [outcome s2]. simpl in *. auto.
  - intros e Hres. destruct (resolve_sends H P this s Hi) as (Hq & _).
    rewrite Hres in Hq. split; [| exact Hq].
    rewrite query_eq. unfold with_session. rewrite Hres. reflexivity.
  - intros c c' this' soql' s3 Hres s2 Hres'.
    destruct (Hone this soql s s1 c Hi Hres) as (_ & Hq & _ & _).
    assert (Hi2 : intact (cache s2)) by apply (perform_keeps H P this (Query soql) s Hi).
    destruct (Hone this' soql' s2 s3 c' Hi2 Hres') as (_ & Hq' & _ & _).
    rewrite Hq'. subst s2. rewrite Hq. rewrite <- app_assoc. reflexivity.
Qed.

(** ** insert, update, upsert, delete *)

(** C5. When session resolution gives a connection, each of the four
    mutations sends the provider its request and settles by the answer: it
    rejects with the error when the provider reports one; it rejects, with
    [null], when the provider reports none and the envelope says
    [success = false]; it is fulfilled with the envelope otherwise. *)
Theorem mutation_rejects_or_resolves :
  forall (this : Engine.t) (recs : value) (object extId : string) (s s1 : state)
         (c : Connection),
    resolve H P this s = (Normal (VConn c), s1) ->
    rejects_or_resolves (sobject_create P (requests s1) c object recs)
                        (fst (Engine.insert H P this recs object s))
    /\ rejects_or_resolves (sobject_update P (requests s1) c object recs)
                           (fst (Engine.update H P this recs object s))
    /\ rejects_or_resolves (sobject_upsert P (requests s1) c object recs extId)
                           (fst (Engine.upsert H P this recs object extId s))
    /\ rejects_or_resolves (sobject_destroy P (requests s1) c object recs)
                           (fst (Engine.delete H P this recs object s)).
Proof.
  intros this recs object extId s s1 c Hres.
  rewrite insert_eq, update_eq, upsert_eq, delete_eq.
  unfold with_session, calling. rewrite Hres. simpl.
  unfold rejects_or_resolves, Engine.settled.
  repeat split;
    match goal with
    | |- context [match ?reply with Failure _ => _ | Success _ => _ end] =>
        destruct reply as [err | res]; [reflexivity | destruct (success res); reflexivity]
    end.
Qed.

(** ** getAllObject, getAllFields, describeObject *)

Lemma describe_key_plain m id :
  describe_key m id <> "currentCredentials" /\ describe_key m id <> "hasOwnProperty".
Proof. destruct m; split; intros E; simpl in E; discriminate E. Qed.

(** C3, as amended. Let the cache be intact and let a describe method be
    called for a user id.
    - If the key of the method is in the cache, then after any sequence of
      calls the method is fulfilled with the cached value and sends no
      describe request.
    - If the key is absent once the session is resolved, the method sends
      the provider exactly one describe request. When the provider answers
      with a result, the method is fulfilled with it and the cache holds it
      under the key. When the provider reports an error, the method rejects
      with that error, and for [getAllObject] and [getAllFields] the key is
      still absent: the next call asks again.
    - The keys of [getAllFields] and of [describeObject] never coincide. *)
Theorem describe_memoized :
  forall (this : Engine.t) (m : describe_method) (id : string) (s : state),
    intact (cache s) ->
    (forall (calls : list (Engine.t * call)) (this' : Engine.t) (conn v : value)
            (s1 : state),
       entry s (describe_key m id) = Some v ->
       resolve H P this' (run H P calls s) = (Normal conn, s1) ->
       user_id_of H conn = Normal id ->
       describe_call H P this' m (run H P calls s) = (Normal v, s1)
       /\ describes s1 = describes (run H P calls s))
    /\ (forall (c : Connection) (s1 : state),
         resolve H P this s = (Normal (VConn c), s1) ->
         user_id_of H (VConn c) = Normal id ->
         entry s1 (describe_key m id) = None ->
         let (outcome, s2) := describe_call H P this m s in
         describes s2 = (describes s ++ [describe_request m c])%list
         /\ match described P m (requests s1) c with
            | Success v => outcome = Normal v /\ entry s2 (describe_key m id) = Some v
            | Failure err =>
                outcome = Throw (VErr err) /\
                match m with
                | ObjectInfo _ => True
                | _ => entry s2 (describe_key m id) = None
                end
            end)
    /\ (forall (o o' id' id'' : string),
         describe_key (AllFields o) id' <> describe_key (ObjectInfo o') id'').
Proof.
  intros this m id s Hi. split; [| split].
  - intros calls this' conn v s1 He Hres Hid.
    destruct (describe_key_plain m id) as (K1 & K2).
    destruct (run_keeps H P calls s Hi) as (Hi' & Hkeep' & _).
    pose proof (resolve_keeps H P this' _ Hi') as (_ & Hkeep1 & _).
    destruct (resolve_sends H P this' _ Hi') as (_ & Hd).
    rewrite Hres in Hkeep1, Hd. simpl in Hkeep1, Hd.
    assert (He1 : entry s1 (describe_key m id) = Some v)
      by (apply Hkeep1, Hkeep'; assumption).
    split; [| exact Hd].
    destruct m; simpl describe_call; simpl describe_key in He1;
      [rewrite getAllObject_eq by exact Hi'
      | rewrite getAllFields_eq by exact Hi'
      | rewrite describeObject_eq by exact Hi'];
      unfold with_session, memoized; rewrite Hres, Hid, He1; reflexivity.
  - intros c s1 Hres Hid He.
    destruct (resolve_sends H P this s Hi) as (_ & Hd).
    rewrite Hres in Hd. simpl in Hd.
    destruct m; simpl describe_call; simpl describe_key in *;
      [rewrite getAllObject_eq by exact Hi
      | rewrite getAllFields_eq by exact Hi
      | rewrite describeObject_eq by exact Hi];
      unfold with_session, memoized, calling; rewrite Hres, Hid, He;
      cbn [receiver described describe_request].
    + destruct (describeGlobal P (requests s1) c) as [err | res];
        (split; [unfold describes in *; simpl; rewrite List.filter_app, Hd; reflexivity |]);
        (split; [reflexivity |]).
      * exact He.
      * unfold entry. simpl. apply lookup_insert_eq.
    + destruct (describe P (requests s1) c objectName) as [err | meta];
        (split; [unfold describes in *; simpl; rewrite List.filter_app, Hd; reflexivity |]);
        (split; [reflexivity |]).
      * exact He.
      * unfold entry. simpl. apply lookup_insert_eq.
    + destruct (describe P (requests s1) c objectName) as [err | meta];
        (split; [unfold describes in *; simpl; rewrite List.filter_app, Hd; reflexivity |]);
        (split; [reflexivity |]).
      * exact I.
      * unfold entry. simpl. apply lookup_insert_eq.
  - intros o o' id' id'' E. simpl in E. discriminate E.
Qed.

(** C10 is what the code misses in [describeObject]: its callback runs on
    after [reject(err)] and stores [meta], which is [undefined] when the
    provider reports an error. The method rejects with the error, and the key
    is now in the cache with the value [undefined]; the method called again
    for that key is fulfilled with [undefined] and asks the provider
    nothing. *)
Theorem describeObject_caches_failure :
  forall (this : Engine.t) (objectName id : string) (s s1 : state) (c : Connection)
         (err : error),
    intact (cache s) ->
    resolve H P this s = (Normal (VConn c), s1) ->
    user_id_of H (VConn c) = Normal id ->
    entry s1 (objectInfoKey objectName id) = None ->
    describe P (requests s1) c objectName = Failure err ->
    let (outcome, s2) := Engine.describeObject H P this objectName s in
    outcome = Throw (VErr err)
    /\ entry s2 (objectInfoKey objectName id) = Some VUndefined
    /\ (forall (this' : Engine.t) (conn : value) (s3 : state),
         resolve H P this' s2 = (Normal conn, s3) ->
         user_id_of H conn = Normal id ->
         Engine.describeObject H P this' objectName s2 = (Normal VUndefined, s3)).
Proof.
  intros this objectName id s s1 c err Hi Hres Hid He Hfail.
  pose proof (perform_keeps H P this (DescribeObject objectName) s Hi) as (Hi2 & _).
  simpl in Hi2. revert Hi2.
  rewrite describeObject_eq by exact Hi.
  unfold with_session, memoized, calling. rewrite Hres, Hid, He. cbn [receiver].
  cbv zeta. rewrite Hfail.
  set (s2 := with_cache (put (objectInfoKey objectName id) VUndefined
                           (cache (log_request (ReqDescribe c objectName) s1)))
                        (log_request (ReqDescribe c objectName) s1)).
  cbn [snd]. intros Hi2.
  assert (Hput : entry s2 (objectInfoKey objectName id) = Some VUndefined)
    by (unfold entry; simpl; apply lookup_insert_eq).
  split; [reflexivity | split; [exact Hput |]].
  intros this' conn s3 Hres' Hid'.
  pose proof (resolve_keeps H P this' s2 Hi2) as (_ & Hkeep & _).
  rewrite Hres' in Hkeep. simpl in Hkeep.
  rewrite describeObject_eq by exact Hi2.
  unfold with_session, memoized. rewrite Hres', Hid'.
  rewrite (Hkeep (objectInfoKey objectName id) VUndefined ltac:(plain_key) Hput).
  reflexivity.
Qed.

(** ** CacheProvider *)

(** C8 is what the code misses: the cache is an object literal, so a key
    that names a member of [Object.prototype] is not a key like the others.
    [getCache] gives the inherited member for a key that was never set, also
    after [deleteCache]; [setCache] of [__proto__] replaces the prototype and
    creates no entry, so [hasCache] is still false; and an entry under
    [hasOwnProperty] makes [hasCache] throw. *)
Theorem cache_inherited_keys :
  forall credential : Credential,
    CacheProvider.hasCache H "constructor" initial = (Normal (VBool false), initial)
    /\ CacheProvider.getCache H "constructor" initial = (Normal (VFunction "Object"), initial)
    /\ (let* _ := CacheProvider.deleteCache H "constructor" in
        CacheProvider.getCache H "constructor") initial
       = (Normal (VFunction "Object"), initial)
    /\ fst ((let* _ := CacheProvider.setCache H "__proto__" (VCred credential) in
             CacheProvider.hasCache H "__proto__") initial)
       = Normal (VBool false)
    /\ fst ((let* _ := CacheProvider.setCache H "hasOwnProperty" (VCred credential) in
             CacheProvider.hasCache H "hasOwnProperty") initial)
       = Throw (VErr (TypeError "this.cacheData.hasOwnProperty is not a function")).
Proof. intros credential. repeat split. Qed.

(** The laws of a map, for the keys the members of [Object.prototype] do not
    touch: in an intact cache, for a key [k] other than [__proto__] and
    [hasOwnProperty], [setCache] makes [hasCache] true and [getCache] give the
    value set, whatever was there; [deleteCache] makes [hasCache] false and
    [getCache] give what an absent key gives, which is [undefined] unless
    [k] names a member of [Object.prototype]; and [deleteCache] of an absent
    key changes nothing. When the module is loaded, [hasCache] is false for
    every key. *)
Theorem cache_map_laws :
  forall (k : string) (v : value) (s : state),
    intact (cache s) -> k <> "__proto__" -> k <> "hasOwnProperty" ->
    (forall k' : string,
       CacheProvider.hasCache H k' initial = (Normal (VBool false), initial))
    /\ (let after_set := snd (CacheProvider.setCache H k v s) in
        CacheProvider.hasCache H k after_set = (Normal (VBool true), after_set)
        /\ CacheProvider.getCache H k after_set = (Normal v, after_set))
    /\ (let after_delete := snd (CacheProvider.deleteCache H k s) in
        CacheProvider.hasCache H k after_delete = (Normal (VBool false), after_delete)
        /\ CacheProvider.getCache H k after_delete =
             (Normal (object_prototype_get k), after_delete))
    /\ (entry s k = None -> CacheProvider.deleteCache H k s = (Normal tt, s)).
Proof.
  intros k v s Hi Hk Hk'. split; [| split; [| split]].
  - intros k'. rewrite hasCache_intact by apply intact_empty. reflexivity.
  - cbv zeta. rewrite setCache_intact by assumption. cbn [snd].
    assert (Hi1 : intact (cache (with_cache (put k v (cache s)) s)))
      by (apply intact_put; assumption).
    rewrite hasCache_intact by exact Hi1. unfold present.
    rewrite entry_put_eq. split; [reflexivity |].
    apply getCache_entry, entry_put_eq.
  - cbv zeta. unfold CacheProvider.deleteCache, bind.
    rewrite (hasCache_intact H k s Hi). unfold present.
    destruct (entry s k) as [old |] eqn:He; cbn [truthy snd ret].
    + set (s' := with_cache (JSObject.delete (cache s) k) s).
      assert (Hi1 : intact (cache s')).
      { destruct Hi as [Hp Hh]. split; [exact Hp |]. simpl.
        rewrite lookup_delete_ne by exact Hk'. exact Hh. }
      assert (He1 : entry s' k = None) by (unfold entry; simpl; apply lookup_delete_eq).
      rewrite hasCache_intact by exact Hi1. unfold present. rewrite He1.
      split; [reflexivity |]. apply getCache_absent; assumption.
    + rewrite hasCache_intact by exact Hi. unfold present. rewrite He.
      split; [reflexivity |]. apply getCache_absent; assumption.
  - intros He. unfold CacheProvider.deleteCache, bind.
    rewrite hasCache_intact by exact Hi. unfold present. rewrite He. reflexivity.
Qed.

(** ** The cache never loses an entry *)

(** Whatever calls the Engines perform, from a state whose cache is intact:
    the cache stays intact, every entry other than the current credential
    stays in the cache with the value it had, and the requests sent before
    are a prefix of the requests sent after. *)
Theorem calls_keep_entries :
  forall (calls : list (Engine.t * call)) (s : state),
    intact (cache s) ->
    intact (cache (run H P calls s))
    /\ (forall (k : string) (v : value),
         k <> "currentCredentials" -> entry s k = Some v ->
         entry (run H P calls s) k = Some v)
    /\ (exists sent, requests (run H P calls s) = (requests s ++ sent)%list).
Proof. intros calls s Hi. exact (run_keeps H P calls s Hi). Qed.

End Claims.

(** * The theorems at work

    Each statement below is an instance of a theorem above, at the host and
    the providers of the examples. *)

Lemma login_memoized_witness :
  intact (cache initial) /\
  fst (Engine.login plain_host friendly production alice_mistyped
         (run plain_host friendly
              [(production, GetAllObject); (production, Query "SELECT Id FROM Account")]
              alice_in))
  = Normal (VConn alice_session).
Proof.
  split; [apply intact_empty |].
  pose proof (login_memoized plain_host friendly production production
                "alice" "secret" "WRONG" initial
                [(production, GetAllObject); (production, Query "SELECT Id FROM Account")]
                intact_empty) as W.
  cbv zeta in W.
  change (Engine.login plain_host friendly production
            (VCred {| username := "alice"; password := "secret" |}) initial)
    with (Normal (VConn alice_session), alice_in) in W.
  destruct W as (_ & W & _).
  destruct (W (VConn alice_session) eq_refl) as (_ & _ & W' & _). exact W'.
Defined.

(** The claim of C1 fails at a provider that rejects the promise of
    [conn.login] when the login fails: the first [login] of a username
    rejects and stores no handle, and the second [login] of that username
    sends a second connect request. *)
Lemma login_connects_again_after_rejection :
  fst (Engine.login plain_host strict production alice_mistyped initial)
    = Throw (VErr (Error "INVALID_LOGIN"))
  /\ entry alice_rejected "con:alice" = None
  /\ connects_for plain_host "alice"
       (snd (Engine.login plain_host strict production alice_mistyped alice_rejected))
     = [connect_request plain_host production alice_mistyped initial;
        connect_request plain_host production alice_mistyped alice_rejected]
  /\ List.length
       (connects_for plain_host "alice"
          (snd (Engine.login plain_host strict production alice_mistyped alice_rejected)))
     = 2.
Proof. repeat split. Qed.

(** The claim of C4 fails at a provider that rejects the promise of
    [conn.login] when the login fails: the provider reports the failure,
    [login] rejects, and no handle is stored. *)
Lemma login_rejects_when_connect_rejects :
  reported (connect_reply plain_host strict production alice_mistyped initial)
    = Some (Error "INVALID_LOGIN")
  /\ fst (Engine.login plain_host strict production alice_mistyped initial)
     = Throw (VErr (Error "INVALID_LOGIN"))
  /\ entry (snd (Engine.login plain_host strict production alice_mistyped initial))
           "con:alice" = None.
Proof. repeat split. Qed.

Lemma login_reported_failure_witness :
  intact (cache initial) /\
  fst (Engine.login plain_host friendly production alice_mistyped initial)
    = Normal (VConn (answered (built production initial) refused_quietly))
  /\ console (snd (Engine.login plain_host friendly production alice_mistyped initial))
     = [VErr (Error "INVALID_LOGIN")].
Proof.
  split; [apply intact_empty |].
  pose proof (login_reported_failure plain_host friendly production
                {| username := "alice"; password := "WRONG" |} initial
                (Error "INVALID_LOGIN") intact_empty eq_refl eq_refl) as W.
  cbv zeta in W. change (VCred {| username := "alice"; password := "WRONG" |})
    with alice_mistyped in W.
  destruct (Engine.login plain_host friendly production alice_mistyped initial)
    as [outcome s']. simpl in W. destruct W as (Wc & Wo & _).
  split; [exact Wo | exact Wc].
Defined.

Lemma intact_alice_in : intact (cache alice_in).
Proof. split; vm_compute; reflexivity. Qed.

Lemma getLoginUrl_contract_witness :
  Engine.getLoginUrl plain_host friendly production initial
    = (Throw (cannot_read "undefined" "username"), initial)
  /\ fst (Engine.getLoginUrl plain_host friendly production alice_in)
     = Normal (VStr "https://na1.salesforce.com//secur/frontdoor.jsp?sid=00Dxx!token").
Proof.
  split.
  - apply (getLoginUrl_contract plain_host friendly production initial intact_empty).
    reflexivity.
  - destruct (getLoginUrl_contract plain_host friendly production alice_in intact_alice_in)
      as (_ & W & _).
    rewrite (W alice alice_session
               (snd (Engine.login plain_host friendly production alice alice_in)));
      [reflexivity | vm_compute; reflexivity | vm_compute; reflexivity].
Defined.

(** The claim of C7 fails when the credential that was set is refused by a
    provider that rejects the promise of [conn.login]: the credential is
    current, and [getLoginUrl] rejects with the error of the provider. *)
Lemma getLoginUrl_rejects_when_session_rejects :
  entry alice_rejected "currentCredentials" = Some alice_mistyped
  /\ fst (Engine.getLoginUrl plain_host strict production alice_rejected)
     = Throw (VErr (Error "INVALID_LOGIN")).
Proof. split; reflexivity. Qed.

Lemma query_rejects_with_undefined_witness :
  fst (Engine.query plain_host unreliable production "SELECT Id FROM Account" alice_in)
    = Throw VUndefined
  /\ console (snd (Engine.query plain_host unreliable production "SELECT Id FROM Account"
                    alice_in))
     = [VErr (Error "MALFORMED_QUERY")].
Proof.
  rewrite (query_rejects_with_undefined plain_host unreliable production
             "SELECT Id FROM Account" alice_in
             (snd (resolve plain_host unreliable production alice_in))
             alice_session (Error "MALFORMED_QUERY"));
    [split; vm_compute; reflexivity | vm_compute; reflexivity | vm_compute; reflexivity].
Defined.

(** The claim of C9 fails when no credential has been set: [query] rejects
    before it reaches the provider, and no query is sent. *)
Lemma query_without_session :
  fst (Engine.query plain_host friendly production "SELECT Id FROM Account" initial)
    = Throw (cannot_read "undefined" "username")
  /\ queries (snd (Engine.query plain_host friendly production "SELECT Id FROM Account"
                    initial))
     = [].
Proof. split; reflexivity. Qed.

Lemma query_asks_once_witness :
  intact (cache alice_in) /\
  queries (snd (Engine.query plain_host friendly production "SELECT Id FROM Account"
                  alice_in))
  = [ReqQuery alice_session "SELECT Id FROM Account"].
Proof.
  split; [exact intact_alice_in |].
  destruct (query_asks_once plain_host friendly production "SELECT Id FROM Account"
              alice_in (snd (resolve plain_host friendly production alice_in))
              intact_alice_in) as (W & _ & _).
  specialize (W alice_session ltac:(vm_compute; reflexivity)).
  destruct (Engine.query plain_host friendly production "SELECT Id FROM Account" alice_in)
    as [outcome s2].
  destruct W as (_ & W & _). exact W.
Defined.

Lemma mutation_rejects_or_resolves_witness :
  fst (Engine.insert plain_host unreliable production (VList ["Acme"]) "Account" alice_in)
    = Throw VNull
  /\ fst (Engine.update plain_host unreliable production (VList ["Acme"]) "Account" alice_in)
     = Throw (VErr (Error "ECONNRESET"))
  /\ fst (Engine.delete plain_host friendly production (VList ["001xx"]) "Account" alice_in)
     = Normal (VSave saved).
Proof.
  destruct (mutation_rejects_or_resolves plain_host unreliable production (VList ["Acme"])
              "Account" "Id" alice_in
              (snd (resolve plain_host unreliable production alice_in)) alice_session
              ltac:(vm_compute; reflexivity)) as (Wi & Wu & _ & _).
  destruct (mutation_rejects_or_resolves plain_host friendly production (VList ["001xx"])
              "Account" "Id" alice_in
              (snd (resolve plain_host friendly production alice_in)) alice_session
              ltac:(vm_compute; reflexivity)) as (_ & _ & _ & Wd).
  split; [exact Wi | split; [exact Wu | exact Wd]].
Defined.

(** The claim of C3 fails when the provider reports an error: the result is
    not cached, and the next call with the same key sends a second describe
    request. *)
Lemma describe_asked_again_after_failure :
  let first := Engine.getAllFields plain_host unreliable production "Account" alice_in in
  let second := Engine.getAllFields plain_host unreliable production "Account" (snd first) in
  fst first = Throw (VErr (Error "REQUEST_LIMIT_EXCEEDED"))
  /\ entry (snd first) (objectFieldsKey "Account" "005alice") = None
  /\ fst second = Normal (VList ["Id"; "Name"])
  /\ describes (snd second)
     = [ReqDescribe alice_session "Account"; ReqDescribe alice_session "Account"].
Proof. repeat split. Qed.

Lemma describe_memoized_witness :
  intact (cache alice_in) /\
  describes (snd (Engine.getAllFields plain_host friendly production "Account" alice_in))
  = [ReqDescribe alice_session "Account"].
Proof.
  split; [exact intact_alice_in |].
  destruct (describe_memoized plain_host friendly production (AllFields "Account")
              "005alice" alice_in intact_alice_in) as (_ & W & _).
  specialize (W alice_session (snd (resolve plain_host friendly production alice_in))
                ltac:(vm_compute; reflexivity) ltac:(vm_compute; reflexivity)
                ltac:(vm_compute; reflexivity)).
  simpl describe_call in W.
  destruct (Engine.getAllFields plain_host friendly production "Account" alice_in)
    as [outcome s2].
  destruct W as (W & _). exact W.
Defined.

Lemma describeObject_caches_failure_witness :
  let first := Engine.describeObject plain_host unreliable production "Account" alice_in in
  fst first = Throw (VErr (Error "REQUEST_LIMIT_EXCEEDED"))
  /\ entry (snd first) (objectInfoKey "Account" "005alice") = Some VUndefined.
Proof.
  cbv zeta.
  pose proof (describeObject_caches_failure plain_host unreliable production "Account"
                "005alice" alice_in
                (snd (resolve plain_host unreliable production alice_in)) alice_session
                (Error "REQUEST_LIMIT_EXCEEDED") intact_alice_in
                ltac:(vm_compute; reflexivity) ltac:(vm_compute; reflexivity)
                ltac:(vm_compute; reflexivity) ltac:(vm_compute; reflexivity)) as W.
  destruct (Engine.describeObject plain_host unreliable production "Account" alice_in)
    as [outcome s2].
  destruct W as (Wo & We & _). split; [exact Wo | exact We].
Defined.

Lemma cache_map_laws_witness :
  CacheProvider.getCache plain_host "con:alice"
    (snd (CacheProvider.setCache plain_host "con:alice" (VStr "session") initial))
  = (Normal (VStr "session"),
     snd (CacheProvider.setCache plain_host "con:alice" (VStr "session") initial)).
Proof.
  destruct (cache_map_laws plain_host "con:alice" (VStr "session") initial intact_empty
              ltac:(discriminate) ltac:(discriminate)) as (_ & W & _).
  cbv zeta in W. destruct W as (_ & W). exact W.
Defined.

Lemma calls_keep_entries_witness :
  entry (run plain_host unreliable
             [(production, DescribeObject "Account"); (production, GetAllObject);
              (production, Login alice_mistyped); (production, Query "SELECT Id FROM Account")]
             alice_in)
        "con:alice"
  = Some (VConn alice_session).
Proof.
  destruct (calls_keep_entries plain_host unreliable
              [(production, DescribeObject "Account"); (production, GetAllObject);
               (production, Login alice_mistyped);
               (production, Query "SELECT Id FROM Account")]
              alice_in intact_alice_in) as (_ & W & _).
  apply W; [discriminate | vm_compute; reflexivity].
Defined.

(** * Further properties of the Engine and of the cache *)

Section Further.

Variable H : Host.
Variable P : Provider.

(** ** Before and after a login *)

Lemma with_cache_id k v s :
  entry s k = Some v -> with_cache (put k v (cache s)) s = s.
Proof.
  unfold entry, with_cache, put. destruct s as [[props proto] sent printed_ thrown built_].
  simpl. intros He. rewrite (insert_id props k v He). reflexivity.
Qed.

Lemma login_current this credential s :
  intact (cache s) -> nullish credential = false ->
  entry (snd (Engine.login H P this credential s)) "currentCredentials" = Some credential.
Proof.
  intros Hi Hn. destruct (userKey_plain H credential) as (_ & _ & K3).
  destruct (entry s (userKey H credential)) as [v |] eqn:He.
  - rewrite (login_cached H P this credential v s Hi Hn He). apply entry_put_eq.
  - rewrite (login_fresh H P this credential s Hi Hn He). cbv zeta.
    destruct (rejects _); unfold entry, connecting; simpl.
    + apply lookup_insert_eq.
    + rewrite lookup_insert_ne by exact K3. apply lookup_insert_eq.
Qed.

Lemma login_fulfilled this credential s h s1 :
  intact (cache s) ->
  Engine.login H P this credential s = (Normal h, s1) ->
  nullish credential = false /\ intact (cache s1) /\
  entry s1 (userKey H credential) = Some h /\
  entry s1 "currentCredentials" = Some credential.
Proof.
  intros Hi Hlogin.
  destruct (nullish credential) eqn:Hn.
  { destruct (login_nullish H P this credential s Hn) as [E [e He]].
    rewrite E, He in Hlogin. discriminate Hlogin. }
  split; [reflexivity |].
  pose proof (login_keeps H P this credential s Hi) as (Hi1 & _).
  pose proof (login_current this credential s Hi Hn) as Hcur.
  rewrite Hlogin in Hi1, Hcur. simpl in Hi1, Hcur.
  split; [exact Hi1 | split; [| exact Hcur]].
  destruct (userKey_plain H credential) as (_ & _ & K3).
  destruct (entry s (userKey H credential)) as [v |] eqn:He.
  - rewrite (login_cached H P this credential v s Hi Hn He) in Hlogin.
    injection Hlogin as <- <-. rewrite entry_put_ne by congruence. exact He.
  - rewrite (login_fresh H P this credential s Hi Hn He) in Hlogin. cbv zeta in Hlogin.
    destruct (rejects _); [discriminate Hlogin |].
    injection Hlogin as <- <-. unfold entry. simpl. apply lookup_insert_eq.
Qed.

(** Once logged in, resolving the session is a lookup: it gives the cached
    handle and leaves the state as it is. *)
Lemma resolve_idle this credential h s :
  intact (cache s) -> nullish credential = false ->
  entry s "currentCredentials" = Some credential ->
  entry s (userKey H credential) = Some h ->
  resolve H P this s = (Normal h, s).
Proof.
  intros Hi Hn Hcur He. rewrite resolve_login.
  pose proof (getCache_entry H "currentCredentials" credential s Hcur) as Hg.
  unfold CacheProvider.getCache in Hg. injection Hg as ->.
  rewrite (login_cached H P this credential h s Hi Hn He).
  rewrite (with_cache_id _ _ _ Hcur). reflexivity.
Qed.

Lemma resolve_unauthenticated this s :
  intact (cache s) -> entry s "currentCredentials" = None ->
  resolve H P this s = (Throw (cannot_read "undefined" "username"), s).
Proof.
  intros Hi He. rewrite resolve_login.
  pose proof (getCache_absent H "currentCredentials" s Hi He ltac:(discriminate)) as Hg.
  unfold CacheProvider.getCache in Hg. injection Hg as ->. reflexivity.
Qed.

(** No method works before a login. In a state whose cache is intact and
    holds no current credential, every method other than [login] rejects with
    the [TypeError] that reading [username] off [undefined] raises; it sends
    the provider nothing and leaves the state, the cache included, as it
    was. *)
Theorem methods_reject_before_login :
  forall (this : Engine.t) (c : call) (s : state),
    intact (cache s) ->
    entry s "currentCredentials" = None ->
    resolves_first c = true ->
    perform H P this c s = (Throw (cannot_read "undefined" "username"), s).
Proof.
  intros this c s Hi He Hc.
  pose proof (resolve_unauthenticated this s Hi He) as Hr.
  destruct c; try discriminate Hc; simpl;
    [rewrite getLoginUrl_eq
    | rewrite getAllObject_eq by exact Hi
    | rewrite getAllFields_eq by exact Hi
    | rewrite describeObject_eq by exact Hi
    | rewrite query_eq
    | rewrite insert_eq
    | rewrite update_eq
    | rewrite upsert_eq
    | rewrite delete_eq];
    unfold with_session; rewrite Hr; reflexivity.
Qed.

(** [login] without a credential: [undefined] and [null] are rejected before
    anything is written; the current credential is not overwritten. *)
Theorem login_without_credential :
  forall (this : Engine.t) (s : state),
    Engine.login H P this VUndefined s = (Throw (cannot_read "undefined" "username"), s)
    /\ Engine.login H P this VNull s = (Throw (cannot_read "null" "username"), s).
Proof. intros this s. split; reflexivity. Qed.

(** The last login is the current one. A [login] with a credential makes it
    the current credential, whether the session came from the cache, was
    established, or was refused by a rejected promise. And once a [login] has
    been fulfilled with a connection, [getLoginUrl] on any Engine gives the
    URL of that connection, sends the provider nothing and leaves the state
    as it is. *)
Theorem last_login_is_current :
  forall (this this' : Engine.t) (credential : value) (s : state),
    intact (cache s) ->
    nullish credential = false ->
    entry (snd (Engine.login H P this credential s)) "currentCredentials" = Some credential
    /\ (forall (c : Connection) (s1 : state),
         Engine.login H P this credential s = (Normal (VConn c), s1) ->
         Engine.getLoginUrl H P this' s1 =
           (Normal (VStr (printed (instanceUrl c) ++ "//secur/frontdoor.jsp?sid="
                          ++ printed (accessToken c))), s1)).
Proof.
  intros this this' credential s Hi Hn. split; [apply login_current; assumption |].
  intros c s1 Hlogin.
  destruct (login_fulfilled this credential s (VConn c) s1 Hi Hlogin)
    as (_ & Hi1 & He1 & Hcur1).
  rewrite getLoginUrl_eq. unfold with_session.
  rewrite (resolve_idle this' credential (VConn c) s1 Hi1 Hn Hcur1 He1).
  unfold member, bind, lift, ret, read, get_property. simpl.
  destruct (instanceUrl c), (accessToken c); reflexivity.
Qed.

(** A handle that is not logged in. When the session resolves to a
    connection whose [userInfo] is [undefined], as a refused login leaves
    it, each describe method rejects with the [TypeError] of reading [id] off
    [undefined]; no describe request is sent and the cache is as session
    resolution left it. *)
Theorem describe_rejects_without_userInfo :
  forall (this : Engine.t) (m : describe_method) (c : Connection) (s s1 : state),
    intact (cache s) ->
    resolve H P this s = (Normal (VConn c), s1) ->
    userInfo c = None ->
    describe_call H P this m s = (Throw (cannot_read "undefined" "id"), s1).
Proof.
  intros this m c s s1 Hi Hres Hu.
  assert (Hid : user_id_of H (VConn c) = Throw (cannot_read "undefined" "id")).
  { unfold user_id_of, read, get_property. simpl. rewrite Hu. reflexivity. }
  destruct m; simpl;
    [rewrite getAllObject_eq by exact Hi
    | rewrite getAllFields_eq by exact Hi
    | rewrite describeObject_eq by exact Hi];
    unfold with_session, memoized; rewrite Hres, Hid; reflexivity.
Qed.

(** ** Mutations and failures *)

(** The mutations pass through. When session resolution gives a connection,
    each of [insert], [update], [upsert] and [delete] sends the provider one
    request, made of the connection, the object name, the records and the
    external id field exactly as given, and changes nothing else: no cache
    entry, no output on the console. When session resolution rejects, the
    mutation rejects with the same error and sends nothing of its own. *)
Theorem mutation_passes_through :
  forall (this : Engine.t) (recs : value) (object extId : string) (s s1 : state),
    (forall c : Connection,
       resolve H P this s = (Normal (VConn c), s1) ->
       snd (Engine.insert H P this recs object s) = log_request (ReqCreate c object recs) s1
       /\ snd (Engine.update H P this recs object s) = log_request (ReqUpdate c object recs) s1
       /\ snd (Engine.upsert H P this recs object extId s)
          = log_request (ReqUpsert c object recs extId) s1
       /\ snd (Engine.delete H P this recs object s)
          = log_request (ReqDestroy c object recs) s1)
    /\ (forall e : value,
         resolve H P this s = (Throw e, s1) ->
         Engine.insert H P this recs object s = (Throw e, s1)
         /\ Engine.update H P this recs object s = (Throw e, s1)
         /\ Engine.upsert H P this recs object extId s = (Throw e, s1)
         /\ Engine.delete H P this recs object s = (Throw e, s1)).
Proof.
  intros this recs object extId s s1. split.
  - intros c Hres. rewrite insert_eq, update_eq, upsert_eq, delete_eq.
    unfold with_session, calling. rewrite Hres. repeat split.
  - intros e Hres. rewrite insert_eq, update_eq, upsert_eq, delete_eq.
    unfold with_session. rewrite Hres. repeat split.
Qed.

(** When the provider reports an error to [getAllObject] or [getAllFields],
    the callback goes on after [reject(err)] and reads a property of the
    missing result: a [TypeError] is thrown inside the callback of the
    provider, uncaught. The promise is rejected with the error of the
    provider all the same, and the cache is not written. *)
Theorem describe_failure_throws_in_callback :
  forall (this : Engine.t) (c : Connection) (id : string) (s s1 : state) (err : error),
    intact (cache s) ->
    resolve H P this s = (Normal (VConn c), s1) ->
    user_id_of H (VConn c) = Normal id ->
    (entry s1 (objectListKey id) = None ->
     describeGlobal P (requests s1) c = Failure err ->
     Engine.getAllObject H P this s =
       (Throw (VErr err),
        log_uncaught (cannot_read "undefined" "sobjects")
          (log_request (ReqDescribeGlobal c) s1)))
    /\ (forall objectName : string,
         entry s1 (objectFieldsKey objectName id) = None ->
         describe P (requests s1) c objectName = Failure err ->
         Engine.getAllFields H P this objectName s =
           (Throw (VErr err),
            log_uncaught (cannot_read "undefined" "fields")
              (log_request (ReqDescribe c objectName) s1))).
Proof.
  intros this c id s s1 err Hi Hres Hid. split.
  - intros He Hfail. rewrite getAllObject_eq by exact Hi.
    unfold with_session, memoized, calling. rewrite Hres, Hid, He. cbn [receiver].
    cbv zeta. rewrite Hfail. reflexivity.
  - intros objectName He Hfail. rewrite getAllFields_eq by exact Hi.
    unfold with_session, memoized, calling. rewrite Hres, Hid, He. cbn [receiver].
    cbv zeta. rewrite Hfail. reflexivity.
Qed.

(** ** More on the cache *)

(** Writing or deleting one key leaves every other key alone: in an intact
    cache, for a key [k] other than [__proto__] and [hasOwnProperty],
    [setCache] and [deleteCache] of [k] change neither what [hasCache] nor
    what [getCache] answers for any other key. *)
Theorem cache_other_keys_untouched :
  forall (k k' : string) (v : value) (s : state),
    intact (cache s) -> k <> "__proto__" -> k <> "hasOwnProperty" -> k <> k' ->
    (let s1 := snd (CacheProvider.setCache H k v s) in
     fst (CacheProvider.hasCache H k' s1) = fst (CacheProvider.hasCache H k' s)
     /\ fst (CacheProvider.getCache H k' s1) = fst (CacheProvider.getCache H k' s))
    /\ (let s2 := snd (CacheProvider.deleteCache H k s) in
        fst (CacheProvider.hasCache H k' s2) = fst (CacheProvider.hasCache H k' s)
        /\ fst (CacheProvider.getCache H k' s2) = fst (CacheProvider.getCache H k' s)).
Proof.
  intros k k' v s Hi Hk Hk' Hne. split; cbv zeta.
  - rewrite setCache_intact by assumption. cbn [snd].
    rewrite !hasCache_intact by (try apply intact_put; assumption).
    unfold present. rewrite entry_put_ne by exact Hne. split; [reflexivity |].
    unfold CacheProvider.getCache, JSObject.get. simpl.
    rewrite lookup_insert_ne by exact Hne. reflexivity.
  - unfold CacheProvider.deleteCache, bind.
    rewrite (hasCache_intact H k s Hi).
    destruct (present s k); cbn [truthy snd ret]; [| split; reflexivity].
    set (s2 := with_cache (JSObject.delete (cache s) k) s).
    assert (Hi2 : intact (cache s2)).
    { destruct Hi as [Hp Hh]. split; [exact Hp |]. simpl.
      rewrite lookup_delete_ne by exact Hk'. exact Hh. }
    rewrite !hasCache_intact by assumption.
    unfold present, entry, CacheProvider.getCache, JSObject.get. simpl.
    rewrite lookup_delete_ne by exact Hne. split; reflexivity.
Qed.

(** Deleting the session of a credential from the cache forces the next
    [login] to connect again: it sends the provider exactly one request, the
    connect request for that credential on a newly built connection, and,
    unless the promise rejects, is fulfilled with that new connection as the
    provider answered it. *)
Theorem deleteCache_forces_reconnect :
  forall (this : Engine.t) (credential : value) (s : state),
    intact (cache s) ->
    nullish credential = false ->
    let s0 := snd (CacheProvider.deleteCache H (userKey H credential) s) in
    let reply := connect_reply H P this credential s in
    requests (snd (Engine.login H P this credential s0))
      = (requests s ++ [connect_request H this credential s])%list
    /\ fst (Engine.login H P this credential s0)
       = match rejects reply with
         | Some e => Throw (VErr e)
         | None => Normal (VConn (answered (built this s) reply))
         end.
Proof.
  intros this credential s Hi Hn. cbv zeta.
  destruct (userKey_plain H credential) as (K1 & K2 & K3).
  unfold CacheProvider.deleteCache, bind.
  rewrite (hasCache_intact H _ s Hi).
  unfold present. destruct (entry s (userKey H credential)) as [old |] eqn:He;
    cbn [truthy snd ret].
  - set (s0 := with_cache (JSObject.delete (cache s) (userKey H credential)) s).
    assert (Hi0 : intact (cache s0)).
    { destruct Hi as [Hp Hh]. split; [exact Hp |]. simpl.
      rewrite lookup_delete_ne by exact K2. exact Hh. }
    assert (He0 : entry s0 (userKey H credential) = None)
      by (unfold entry; simpl; apply lookup_delete_eq).
    rewrite (login_fresh H P this credential s0 Hi0 Hn He0). cbv zeta.
    change (connect_reply H P this credential s0) with (connect_reply H P this credential s).
    destruct (rejects _); split; reflexivity.
  - rewrite (login_fresh H P this credential s Hi Hn He). cbv zeta.
    destruct (rejects _); split; reflexivity.
Qed.

(** Assigning to [__proto__]. In an intact cache that owns no [__proto__]
    entry, [setCache] of [__proto__] with [undefined], a boolean or a string
    is dropped: the state is unchanged. With [null] it removes the prototype
    of the cache object, and with it the method [hasOwnProperty]: from then
    on [hasCache] throws for every key, and every [login] with a credential
    rejects with that [TypeError] without sending the provider anything. *)
Theorem proto_assignment :
  forall (this : Engine.t) (credential : value) (k : string) (s : state),
    intact (cache s) ->
    entry s "__proto__" = None ->
    nullish credential = false ->
    (forall data : value,
       is_object data = false -> data <> VNull ->
       CacheProvider.setCache H "__proto__" data s = (Normal tt, s))
    /\ (let s0 := snd (CacheProvider.setCache H "__proto__" VNull s) in
        let broken := Throw (VErr (TypeError
                        "this.cacheData.hasOwnProperty is not a function")) in
        fst (CacheProvider.hasCache H k s0) = broken
        /\ fst (Engine.login H P this credential s0) = broken
        /\ requests (snd (Engine.login H P this credential s0)) = requests s).
Proof.
  intros this credential k s [Hp Hh] He Hn. unfold entry in He. split.
  - intros data Hd Hnull. unfold CacheProvider.setCache, JSObject.set.
    rewrite He, Hp. simpl. rewrite Hd.
    destruct data; try discriminate Hd; try congruence;
      destruct s as [[props proto] ? ? ? ?]; reflexivity.
  - cbv zeta. unfold CacheProvider.setCache at 1 2 3, JSObject.set.
    rewrite He, Hp. simpl.
    set (s0 := with_cache {| JSObject.own := JSObject.own (cache s);
                             JSObject.prototype := None |} s).
    split; [| split].
    + unfold CacheProvider.hasCache, JSObject.hasOwnProperty, JSObject.get.
      simpl. rewrite Hh. reflexivity.
    + unfold Engine.login, member. rewrite read_some by exact Hn.
      cbv beta iota delta [bind lift].
      assert (Hset : CacheProvider.setCache H "currentCredentials" credential s0
                     = (Normal tt, with_cache (put "currentCredentials" credential (cache s0)) s0)).
      { unfold CacheProvider.setCache, JSObject.set. simpl.
        destruct (JSObject.own (cache s) !! "currentCredentials"); reflexivity. }
      rewrite Hset.
      unfold CacheProvider.hasCache, JSObject.hasOwnProperty, JSObject.get.
      simpl. rewrite lookup_insert_ne by discriminate. rewrite Hh. reflexivity.
    + unfold Engine.login, member. rewrite read_some by exact Hn.
      cbv beta iota delta [bind lift].
      assert (Hset : CacheProvider.setCache H "currentCredentials" credential s0
                     = (Normal tt, with_cache (put "currentCredentials" credential (cache s0)) s0)).
      { unfold CacheProvider.setCache, JSObject.set. simpl.
        destruct (JSObject.own (cache s) !! "currentCredentials"); reflexivity. }
      rewrite Hset.
      unfold CacheProvider.hasCache, JSObject.hasOwnProperty, JSObject.get.
      simpl. rewrite lookup_insert_ne by discriminate. rewrite Hh. reflexivity.
Qed.

(** ** The keys *)

Lemma append_cancel (p a b : string) : p ++ a = p ++ b -> a = b.
Proof.
  induction p as [| ch p IH]; intros E; [exact E |].
  apply IH. change ((String ch p) ++ a) with (String ch (p ++ a)) in E.
  change ((String ch p) ++ b) with (String ch (p ++ b)) in E.
  injection E as E. exact E.
Qed.

Lemma colon_split o o' rest rest' :
  colon_free o = true -> colon_free o' = true ->
  o ++ ":" ++ rest = o' ++ ":" ++ rest' -> o = o' /\ rest = rest'.
Proof.
  revert o'. induction o as [| a o IH]; intros [| a' o'] Ho Ho' E.
  - apply (append_cancel ":") in E. split; [reflexivity | exact E].
  - change (String ":" rest = String a' (o' ++ ":" ++ rest')) in E.
    injection E as Ea E. subst a'. discriminate Ho'.
  - change (String a (o ++ ":" ++ rest) = String ":" rest') in E.
    injection E as Ea E. subst a. discriminate Ho.
  - change (String a (o ++ ":" ++ rest) = String a' (o' ++ ":" ++ rest')) in E.
    injection E as Ea E. subst a'.
    simpl in Ho, Ho'.
    apply andb_prop in Ho as [_ Ho]. apply andb_prop in Ho' as [_ Ho'].
    destruct (IH o' Ho Ho' E) as [-> ->]. split; reflexivity.
Qed.

(** Two describe calls share a cache entry only when they are the same
    call by the same user: for object names without a colon, the keys of
    [getAllFields] and of [describeObject] determine the object name and the
    user id, as the key of [getAllObject] determines the user id and the key
    of a session the username. *)
Theorem describe_keys_injective :
  forall (o o' id id' : string),
    colon_free o = true -> colon_free o' = true ->
    (objectFieldsKey o id = objectFieldsKey o' id' -> o = o' /\ id = id')
    /\ (objectInfoKey o id = objectInfoKey o' id' -> o = o' /\ id = id')
    /\ (objectListKey id = objectListKey id' -> id = id')
    /\ (forall c c' : Credential,
         userKey H (VCred c) = userKey H (VCred c') -> username c = username c').
Proof.
  intros o o' id id' Ho Ho'.
  split; [| split; [| split]].
  - intros E. apply (append_cancel "objectFields:") in E.
    exact (colon_split o o' id id' Ho Ho' E).
  - intros E. apply (append_cancel "objectInfo:") in E.
    exact (colon_split o o' id id' Ho Ho' E).
  - intros E. exact (append_cancel "objectList:" id id' E).
  - intros c c' E. exact (append_cancel "con:" (username c) (username c') E).
Qed.

Lemma append_assoc3 (a b c : string) : (a ++ b) ++ c = a ++ b ++ c.
Proof.
  induction a as [| ch a IH]; [reflexivity |].
  change (String ch ((a ++ b) ++ c) = String ch (a ++ b ++ c)). rewrite IH. reflexivity.
Qed.

(** Without that proviso the keys do collide: the colon that ends the
    object name in a key is not told apart from a colon inside the name, so
    an object name [o:x] with the user id [id] has the key of the object name
    [o] with the user id [x:id], for [getAllFields] and for
    [describeObject]. *)
Theorem describe_keys_collide_on_colons :
  forall (o x id : string),
    objectFieldsKey (o ++ ":" ++ x) id = objectFieldsKey o (x ++ ":" ++ id)
    /\ objectInfoKey (o ++ ":" ++ x) id = objectInfoKey o (x ++ ":" ++ id).
Proof.
  intros o x id. unfold objectFieldsKey, objectInfoKey.
  rewrite !(append_assoc3 o). rewrite !(append_assoc3 ":" x). split; reflexivity.
Qed.

(** ** The connections in the cache *)

Lemma same_sessions_refl s : same_sessions s s.
Proof. split; [reflexivity | auto]. Qed.

Lemma same_sessions_trans s1 s2 s3 :
  same_sessions s1 s2 -> same_sessions s2 s3 -> same_sessions s1 s3.
Proof.
  intros [C12 E12] [C23 E23]. split; [congruence |].
  intros k c Hk He. apply E12, E23; assumption.
Qed.

Lemma same_sessions_log_request r s : same_sessions s (log_request r s).
Proof. split; [reflexivity | auto]. Qed.

Lemma same_sessions_log_console v s : same_sessions s (log_console v s).
Proof. split; [reflexivity | auto]. Qed.

Lemma same_sessions_log_uncaught v s : same_sessions s (log_uncaught v s).
Proof. split; [reflexivity | auto]. Qed.

(** Storing a value that is not a connection, or the current credential. *)
Lemma same_sessions_put k v s :
  (forall c, v <> VConn c) \/ k = "currentCredentials" ->
  same_sessions s (with_cache (put k v (cache s)) s).
Proof.
  intros Hv. split; [reflexivity |]. intros k' c Hk' He.
  destruct (decide (k = k')) as [<- | Hne].
  - rewrite entry_put_eq in He. injection He as ->.
    destruct Hv as [Hv | Hv]; [exfalso; exact (Hv c eq_refl) | contradiction].
  - rewrite entry_put_ne in He by exact Hne. exact He.
Qed.

Lemma adds_session_same s s1 s2 :
  adds_session s s1 -> same_sessions s1 s2 -> adds_session s s2.
Proof.
  intros (Hle & new & Hnew) (Hc & Hsame). split; [rewrite Hc; exact Hle |].
  exists new. intros k c Hk He. rewrite Hc. apply Hnew; [exact Hk |].
  apply Hsame; assumption.
Qed.

Lemma adds_session_of_same s s' : same_sessions s s' -> adds_session s s'.
Proof.
  intros (Hc & Hsame). split; [rewrite Hc; apply le_n |].
  exists "". intros k c Hk He. left. apply Hsame; assumption.
Qed.

Lemma login_adds_session this credential s :
  intact (cache s) -> adds_session s (snd (Engine.login H P this credential s)).
Proof.
  intros Hi. destruct (nullish credential) eqn:Hn.
  - destruct (login_nullish H P this credential s Hn) as [-> _].
    apply adds_session_of_same, same_sessions_refl.
  - destruct (userKey_plain H credential) as (K1 & K2 & K3).
    destruct (entry s (userKey H credential)) as [v |] eqn:He.
    + rewrite (login_cached H P this credential v s Hi Hn He).
      apply adds_session_of_same, same_sessions_put. right. reflexivity.
    + rewrite (login_fresh H P this credential s Hi Hn He). cbv zeta.
      assert (Hold : forall k c, k <> "currentCredentials" ->
                entry (connecting H P this credential s) k = Some (VConn c) ->
                entry s k = Some (VConn c)).
      { intros k c Hk Hek. unfold entry, connecting in Hek. simpl in Hek.
        rewrite lookup_insert_ne in Hek by congruence. exact Hek. }
      destruct (rejects _); cbn [snd].
      * split; [simpl; apply le_S, le_n |].
        exists "". intros k c Hk Hek. left. apply Hold; assumption.
      * split; [simpl; apply le_S, le_n |].
        exists (userKey H credential). intros k c Hk Hek.
        destruct (decide (userKey H credential = k)) as [<- | Hne].
        -- right. unfold entry in Hek. simpl in Hek.
           rewrite lookup_insert_eq in Hek. injection Hek as <-.
           simpl. split; [reflexivity | split; [apply le_n | apply le_n]].
        -- left. apply Hold; [exact Hk |].
           unfold entry in *. simpl in *.
           rewrite lookup_insert_ne in Hek by exact Hne. exact Hek.
Qed.

Lemma with_session_adds {A : Type} this (k : value -> M A) s :
  (forall conn s1, intact (cache s1) -> same_sessions s1 (snd (k conn s1))) ->
  intact (cache s) -> adds_session s (snd (with_session H P this k s)).
Proof.
  intros Hk Hi. pose proof (resolve_keeps H P this s Hi) as (Hi1 & _).
  pose proof (login_adds_session this (JSObject.get H (cache s) "currentCredentials") s Hi)
    as Ha.
  rewrite <- resolve_login in Ha. unfold with_session.
  destruct (resolve H P this s) as [[conn | e |] s1]; simpl in *; try exact Ha.
  eapply adds_session_same; [exact Ha |]. apply Hk, Hi1.
Qed.

Lemma calling_same {A : Type} conn method (k : Connection -> M A) s :
  (forall c, same_sessions s (snd (k c s))) ->
  same_sessions s (snd (calling conn method k s)).
Proof.
  intros Hk. unfold calling.
  destruct (receiver conn method); simpl; [apply Hk | apply same_sessions_refl ..].
Qed.

Lemma memoized_same conn key method ask s :
  (forall id c, same_sessions s (snd (ask (key id) c s))) ->
  same_sessions s (snd (memoized H conn key method ask s)).
Proof.
  intros Hk. unfold memoized.
  destruct (user_id_of H conn) as [id | e |]; simpl; try apply same_sessions_refl.
  destruct (entry s (key id)); simpl; [apply same_sessions_refl |].
  apply calling_same. intros c. apply Hk.
Qed.

Lemma same_sessions_stored r key v s :
  (forall c, v <> VConn c) ->
  same_sessions s (with_cache (put key v (cache (log_request r s))) (log_request r s)).
Proof.
  intros Hv. eapply same_sessions_trans; [apply same_sessions_log_request |].
  apply same_sessions_put. left. exact Hv.
Qed.

Lemma perform_adds_session this c s :
  intact (cache s) -> adds_session s (snd (perform H P this c s)).
Proof.
  intros Hi. destruct c; simpl.
  - apply login_adds_session, Hi.
  - rewrite getLoginUrl_eq. apply with_session_adds; [| exact Hi].
    intros conn s1 _. unfold member, bind, lift, ret.
    destruct (read H conn "instanceUrl"); simpl; try apply same_sessions_refl.
    destruct (read H conn "accessToken"); simpl; apply same_sessions_refl.
  - rewrite getAllObject_eq by exact Hi. apply with_session_adds; [| exact Hi].
    intros conn s1 _. apply memoized_same. intros id c.
    destruct (describeGlobal P (requests s1) c); simpl.
    + eapply same_sessions_trans;
        [apply same_sessions_log_request | apply same_sessions_log_uncaught].
    + apply same_sessions_stored. discriminate.
  - rewrite getAllFields_eq by exact Hi. apply with_session_adds; [| exact Hi].
    intros conn s1 _. apply memoized_same. intros id c.
    destruct (describe P (requests s1) c objectName); simpl.
    + eapply same_sessions_trans;
        [apply same_sessions_log_request | apply same_sessions_log_uncaught].
    + apply same_sessions_stored. discriminate.
  - rewrite describeObject_eq by exact Hi. apply with_session_adds; [| exact Hi].
    intros conn s1 _. apply memoized_same. intros id c.
    destruct (describe P (requests s1) c objectName); simpl;
      apply same_sessions_stored; discriminate.
  - rewrite query_eq. apply with_session_adds; [| exact Hi].
    intros conn s1 _. apply calling_same. intros c.
    destruct (run_query P (requests s1) c soql); simpl.
    + eapply same_sessions_trans;
        [apply same_sessions_log_request | apply same_sessions_log_console].
    + apply same_sessions_log_request.
  - rewrite insert_eq. apply with_session_adds; [| exact Hi].
    intros conn s1 _. apply calling_same. intros c. apply same_sessions_log_request.
  - rewrite update_eq. apply with_session_adds; [| exact Hi].
    intros conn s1 _. apply calling_same. intros c. apply same_sessions_log_request.
  - rewrite upsert_eq. apply with_session_adds; [| exact Hi].
    intros conn s1 _. apply calling_same. intros c. apply same_sessions_log_request.
  - rewrite delete_eq. apply with_session_adds; [| exact Hi].
    intros conn s1 _. apply calling_same. intros c. apply same_sessions_log_request.
Qed.

Lemma sessions_apart_step s s' :
  sessions_apart s -> adds_session s s' -> sessions_apart s'.
Proof.
  intros Hs (Hle & new & Hnew) k c Hk He.
  destruct (Hnew k c Hk He) as [Hold | (-> & Hlo & Hhi)].
  - destruct (Hs k c Hk Hold) as [Hlt Hinj]. split; [lia |].
    intros k' c' Hk' He' Hid.
    destruct (Hnew k' c' Hk' He') as [Hold' | (_ & Hlo' & _)].
    + apply (Hinj k' c' Hk' Hold' Hid).
    + lia.
  - split; [exact Hhi |]. intros k' c' Hk' He' Hid.
    destruct (Hnew k' c' Hk' He') as [Hold' | (-> & _ & _)]; [| reflexivity].
    destruct (Hs k' c' Hk' Hold') as [Hlt' _]. lia.
Qed.

(** No two keys share a connection. Let the cache be intact and let every
    connection in it be one the process has built, no two keys holding the
    same one, as it is when the module is loaded. Then after any sequence of
    calls this is still so: a session stored under one key is a different
    connection object from the session under any other key. *)
Theorem sessions_stay_apart :
  forall (calls : list (Engine.t * call)) (s : state),
    intact (cache s) -> sessions_apart s -> sessions_apart (run H P calls s).
Proof.
  induction calls as [| [this c] rest IH]; intros s Hi Hs; simpl; [exact Hs |].
  apply IH.
  - apply (perform_keeps H P this c s Hi).
  - apply (sessions_apart_step s _ Hs), perform_adds_session, Hi.
Qed.

End Further.

(** * The further properties at work *)

Lemma methods_reject_before_login_witness :
  perform plain_host friendly production (GetAllFields "Account") initial
    = (Throw (cannot_read "undefined" "username"), initial)
  /\ perform plain_host friendly production (Insert (VList ["Acme"]) "Account") initial
     = (Throw (cannot_read "undefined" "username"), initial).
Proof.
  split; apply methods_reject_before_login; solve [apply intact_empty | reflexivity].
Defined.

Lemma last_login_is_current_witness :
  entry (snd (Engine.login plain_host friendly production bob alice_in)) "currentCredentials"
    = Some bob
  /\ fst (Engine.getLoginUrl plain_host friendly production
            (snd (Engine.login plain_host friendly production bob alice_in)))
     = Normal (VStr "https://na1.salesforce.com//secur/frontdoor.jsp?sid=00Dxx!token").
Proof.
  destruct (last_login_is_current plain_host friendly production production bob alice_in
              intact_alice_in eq_refl) as [Wc Wu].
  split; [exact Wc |].
  rewrite (Wu (answered (built production alice_in) (signed_in (VStr "bob")))
              (snd (Engine.login plain_host friendly production bob alice_in)));
    [reflexivity | vm_compute; reflexivity].
Defined.

Lemma intact_alice_refused : intact (cache alice_refused).
Proof. split; vm_compute; reflexivity. Qed.

Lemma describe_rejects_without_userInfo_witness :
  Engine.getAllObject plain_host friendly production alice_refused
    = (Throw (cannot_read "undefined" "id"), alice_refused)
  /\ Engine.describeObject plain_host friendly production "Account" alice_refused
     = (Throw (cannot_read "undefined" "id"), alice_refused).
Proof.
  split.
  - apply (describe_rejects_without_userInfo plain_host friendly production AllObjects
             alice_handle_refused alice_refused alice_refused intact_alice_refused);
      vm_compute; reflexivity.
  - apply (describe_rejects_without_userInfo plain_host friendly production
             (ObjectInfo "Account") alice_handle_refused alice_refused alice_refused
             intact_alice_refused);
      vm_compute; reflexivity.
Defined.

Lemma mutation_passes_through_witness :
  requests (snd (Engine.upsert plain_host friendly production (VList ["Acme"]) "Account"
                   "External_Id__c" alice_in))
  = (requests alice_in
     ++ [ReqUpsert alice_session "Account" (VList ["Acme"]) "External_Id__c"])%list.
Proof.
  destruct (mutation_passes_through plain_host friendly production (VList ["Acme"])
              "Account" "External_Id__c" alice_in
              (snd (resolve plain_host friendly production alice_in))) as [W _].
  destruct (W alice_session ltac:(vm_compute; reflexivity)) as (_ & _ & Wu & _).
  rewrite Wu. vm_compute. reflexivity.
Defined.

Lemma describe_failure_throws_in_callback_witness :
  uncaught (snd (Engine.getAllObject plain_host unreliable production alice_in))
    = [cannot_read "undefined" "sobjects"]
  /\ cache (snd (Engine.getAllObject plain_host unreliable production alice_in))
     = cache alice_in.
Proof.
  destruct (describe_failure_throws_in_callback plain_host unreliable production
              alice_session "005alice" alice_in
              (snd (resolve plain_host unreliable production alice_in))
              (Error "REQUEST_LIMIT_EXCEEDED") intact_alice_in
              ltac:(vm_compute; reflexivity) ltac:(vm_compute; reflexivity)) as [W _].
  rewrite W; [split; vm_compute; reflexivity | vm_compute; reflexivity ..].
Defined.

Lemma cache_other_keys_untouched_witness :
  fst (CacheProvider.getCache plain_host "con:alice"
         (snd (CacheProvider.deleteCache plain_host "currentCredentials" alice_in)))
  = fst (CacheProvider.getCache plain_host "con:alice" alice_in).
Proof.
  destruct (cache_other_keys_untouched plain_host "currentCredentials" "con:alice"
              VUndefined alice_in intact_alice_in ltac:(discriminate) ltac:(discriminate)
              ltac:(discriminate)) as [_ W].
  cbv zeta in W. destruct W as [_ W]. exact W.
Defined.

Lemma deleteCache_forces_reconnect_witness :
  requests (snd (Engine.login plain_host friendly production alice
                   (snd (CacheProvider.deleteCache plain_host "con:alice" alice_in))))
  = (requests alice_in ++ [connect_request plain_host production alice alice_in])%list.
Proof.
  pose proof (deleteCache_forces_reconnect plain_host friendly production alice alice_in
                intact_alice_in eq_refl) as W.
  cbv zeta in W. destruct W as [W _]. exact W.
Defined.

Lemma proto_assignment_witness :
  fst (Engine.login plain_host friendly production alice
         (snd (CacheProvider.setCache plain_host "__proto__" VNull alice_in)))
  = Throw (VErr (TypeError "this.cacheData.hasOwnProperty is not a function")).
Proof.
  destruct (proto_assignment plain_host friendly production alice "con:alice" alice_in
              intact_alice_in ltac:(vm_compute; reflexivity) eq_refl) as [_ W].
  cbv zeta in W. destruct W as (_ & W & _). exact W.
Defined.

Lemma describe_keys_injective_witness :
  colon_free "Custom_Object__c" = true
  /\ ("Custom_Object__c" = "Custom_Object__c" /\ "005alice" = "005alice").
Proof.
  split; [reflexivity |].
  apply (describe_keys_injective plain_host "Custom_Object__c" "Custom_Object__c"
           "005alice" "005alice" eq_refl eq_refl).
  reflexivity.
Defined.

Lemma sessions_stay_apart_witness :
  intact (cache initial)
  /\ sessions_apart (run plain_host friendly
                        [(production, Login alice); (production, GetAllObject);
                         (production, Login bob)] initial).
Proof.
  split; [apply intact_empty |].
  apply sessions_stay_apart; [apply intact_empty |].
  intros k c _ He. discriminate He.
Defined.
